(** * Event Manager backend: the Guest model, its controllers and the access check

    A shallow embedding of

      - [models/Guest.js]            (schema, [canEnter], [registerEntry],
                                      [registerGift], the [pre('save')] hook),
      - [controllers/guestController.js],
      - [middleware/errorHandler.js] ([errorHandler], [AppError], [asyncHandler]),
      - [middleware/authMiddleware.js] ([canManageGuests], [checkGuestAccess]),
      - [routes/guestRoutes.js]      (the middleware chain of every route),
      - [package.json]               (the declared [mongoose ^7.0.3]),

    followed by the properties of the guest lifecycle that are checked
    against it.

    The [guests] collection is a finite map from [_id] to documents.  Handlers
    are written in a small state-and-exception monad over the database, the
    way the JavaScript threads the collection and [throw]s through its
    [await]s.  What the JavaScript takes from its environment ([Date.now()],
    [Math.random()], the QR renderer) is passed in as an [Env]. *)

From Stdlib Require Import Ascii NArith Lia.
From stdpp Require Import base option list gmap strings fin_maps sorting.

Local Open Scope nat_scope.

(* ===================================================================== *)
(** * JavaScript strings *)
(* ===================================================================== *)

Module JsString.

(** Strings are the UTF-8 bytes of the JavaScript string.

    [String.prototype.trim] removes the white space and the line
    terminators of ECMAScript at both ends.  Those of one byte: tab, line
    feed, vertical tab, form feed, carriage return, space. *)
Definition is_space (c : ascii) : bool :=
  let n := nat_of_ascii c in
  ((9 <=? n) && (n <=? 13)) || (n =? 32).

(** Of two bytes: U+00A0 (no-break space), [C2 A0]. *)
Definition is_space2 (a b : ascii) : bool :=
  (nat_of_ascii a =? 194) && (nat_of_ascii b =? 160).

(** Of three bytes: U+1680 [E1 9A 80]; U+2000 to U+200A [E2 80 80] to
    [E2 80 8A]; U+2028, U+2029 [E2 80 A8], [E2 80 A9]; U+202F [E2 80 AF];
    U+205F [E2 81 9F]; U+3000 [E3 80 80]; U+FEFF [EF BB BF]. *)
Definition is_space3 (a b c : ascii) : bool :=
  let '(a, b, c) := (nat_of_ascii a, nat_of_ascii b, nat_of_ascii c) in
  ((a =? 225) && (b =? 154) && (c =? 128))
  || ((a =? 226) && (b =? 128)
      && (((128 <=? c) && (c <=? 138)) || (c =? 168) || (c =? 169) || (c =? 175)))
  || ((a =? 226) && (b =? 129) && (c =? 159))
  || ((a =? 227) && (b =? 128) && (c =? 128))
  || ((a =? 239) && (b =? 187) && (c =? 191)).

Fixpoint trimStart (s : string) : string :=
  match s with
  | EmptyString => EmptyString
  | String a s1 =>
      if is_space a then trimStart s1 else
      match s1 with
      | EmptyString => s
      | String b s2 =>
          if is_space2 a b then trimStart s2 else
          match s2 with
          | EmptyString => s
          | String c s3 => if is_space3 a b c then trimStart s3 else s
          end
      end
  end.

(** The bytes of a string, last byte first. *)
Fixpoint reversed_onto (acc s : string) : string :=
  match s with
  | EmptyString => acc
  | String c s' => reversed_onto (String c acc) s'
  end.

Definition reversed (s : string) : string := reversed_onto EmptyString s.

(** [trimStart] on the reversed string: the last byte of a character comes
    first. *)
Fixpoint trimStart_reversed (s : string) : string :=
  match s with
  | EmptyString => EmptyString
  | String c s1 =>
      if is_space c then trimStart_reversed s1 else
      match s1 with
      | EmptyString => s
      | String b s2 =>
          if is_space2 b c then trimStart_reversed s2 else
          match s2 with
          | EmptyString => s
          | String a s3 => if is_space3 a b c then trimStart_reversed s3 else s
          end
      end
  end.

Definition trimEnd (s : string) : string :=
  reversed (trimStart_reversed (reversed s)).

Definition trim (s : string) : string := trimEnd (trimStart s).

(** [String.prototype.toLowerCase] on the letters of ASCII; the letters
    beyond ASCII, which it lowers by the case tables of Unicode, are left
    as they are here.  The schema lowers [email] with it, and no property
    below depends on the case of a stored email. *)
Definition lower_ascii (c : ascii) : ascii :=
  let n := nat_of_ascii c in
  if (65 <=? n) && (n <=? 90) then ascii_of_nat (n + 32) else c.

Fixpoint toLowerCase (s : string) : string :=
  match s with
  | EmptyString => EmptyString
  | String c s' => String (lower_ascii c) (toLowerCase s')
  end.

(** [s.substring(i, j)] for [i <= j]: the characters at positions
    [i .. j-1] that exist. *)
Definition substring (i j : nat) (s : string) : string :=
  String.substring i (j - i) s.

(** One digit of [Number.prototype.toString(36)]: [0-9] then [a-z]. *)
Definition digit36 (d : N) : ascii :=
  if (d <? 10)%N then ascii_of_N (48 + d) else ascii_of_N (87 + d).

Fixpoint toString36_digits (fuel : nat) (n : N) (acc : string) : string :=
  match fuel with
  | O => acc
  | S fuel' =>
      let acc' := String (digit36 (n mod 36)) acc in
      if (n / 36 =? 0)%N then acc' else toString36_digits fuel' (n / 36) acc'
  end.

(** [n.toString(36)] for a non-negative integer.  A number has no more
    base-36 digits than binary ones, so the fuel is never exhausted. *)
Definition toString36 (n : N) : string :=
  toString36_digits (S (N.to_nat (N.log2 n))) n EmptyString.

(** The double quote, for messages that contain one. *)
Definition dquote : string := String (ascii_of_nat 34) EmptyString.

(** JavaScript truthiness of a string: every string but the empty one. *)
Definition truthy (s : string) : bool :=
  match s with EmptyString => false | _ => true end.

End JsString.

(* ===================================================================== *)
(** * The Guest schema ([models/Guest.js]) *)
(* ===================================================================== *)

(** An [ObjectId] is a natural number, a [Date] its milliseconds. *)
Abbreviation ObjectId := nat (only parsing).
Abbreviation Date := N (only parsing).

(** A guest document.  [ticketType] and [status] are strings, as in the
    schema; the [enum] validators below restrict them.  A required string
    path that is absent is the empty string: the [required] validator and
    [!this.qrCode] treat [undefined], [null] and [''] alike.  [None] stands
    for [null]/[undefined] on the optional paths.  The [_id] is the key of
    the document in the collection. *)
Record Guest := mkGuest {
  name       : string;
  email      : string;
  phone      : option string;
  ticketType : string;
  qrCode     : string;
  status     : string;
  gift       : option string;
  entryTime  : option Date;
  createdBy  : ObjectId;
  createdAt  : Date
}.

#[global] Instance Guest_eq_dec : EqDecision Guest.
Proof. solve_decision. Defined.

Definition ticketType_enum : list string := ["vip"; "general"; "invitacion"].
Definition status_enum     : list string := ["pendiente"; "ingresado"; "cancelado"].

(** The paths of the schema, as [modifiedPaths()] and update operators name
    them. *)
Inductive Path :=
| p_name | p_email | p_phone | p_ticketType | p_qrCode
| p_status | p_gift | p_entryTime | p_createdBy | p_createdAt.

#[global] Instance Path_eq_dec : EqDecision Path.
Proof. solve_decision. Defined.

Definition set_name (v : string) (g : Guest) : Guest :=
  mkGuest v (email g) (phone g) (ticketType g) (qrCode g) (status g)
          (gift g) (entryTime g) (createdBy g) (createdAt g).
Definition set_email (v : string) (g : Guest) : Guest :=
  mkGuest (name g) v (phone g) (ticketType g) (qrCode g) (status g)
          (gift g) (entryTime g) (createdBy g) (createdAt g).
Definition set_phone (v : option string) (g : Guest) : Guest :=
  mkGuest (name g) (email g) v (ticketType g) (qrCode g) (status g)
          (gift g) (entryTime g) (createdBy g) (createdAt g).
Definition set_ticketType (v : string) (g : Guest) : Guest :=
  mkGuest (name g) (email g) (phone g) v (qrCode g) (status g)
          (gift g) (entryTime g) (createdBy g) (createdAt g).
Definition set_qrCode (v : string) (g : Guest) : Guest :=
  mkGuest (name g) (email g) (phone g) (ticketType g) v (status g)
          (gift g) (entryTime g) (createdBy g) (createdAt g).
Definition set_status (v : string) (g : Guest) : Guest :=
  mkGuest (name g) (email g) (phone g) (ticketType g) (qrCode g) v
          (gift g) (entryTime g) (createdBy g) (createdAt g).
Definition set_gift (v : option string) (g : Guest) : Guest :=
  mkGuest (name g) (email g) (phone g) (ticketType g) (qrCode g) (status g)
          v (entryTime g) (createdBy g) (createdAt g).
Definition set_entryTime (v : option Date) (g : Guest) : Guest :=
  mkGuest (name g) (email g) (phone g) (ticketType g) (qrCode g) (status g)
          (gift g) v (createdBy g) (createdAt g).
Definition set_createdBy (v : ObjectId) (g : Guest) : Guest :=
  mkGuest (name g) (email g) (phone g) (ticketType g) (qrCode g) (status g)
          (gift g) (entryTime g) v (createdAt g).
Definition set_createdAt (v : Date) (g : Guest) : Guest :=
  mkGuest (name g) (email g) (phone g) (ticketType g) (qrCode g) (status g)
          (gift g) (entryTime g) (createdBy g) v.

(** [$set] of one path of [dst] to the value it has in [src]. *)
Definition copy_path (src : Guest) (p : Path) (dst : Guest) : Guest :=
  match p with
  | p_name       => set_name (name src) dst
  | p_email      => set_email (email src) dst
  | p_phone      => set_phone (phone src) dst
  | p_ticketType => set_ticketType (ticketType src) dst
  | p_qrCode     => set_qrCode (qrCode src) dst
  | p_status     => set_status (status src) dst
  | p_gift       => set_gift (gift src) dst
  | p_entryTime  => set_entryTime (entryTime src) dst
  | p_createdBy  => set_createdBy (createdBy src) dst
  | p_createdAt  => set_createdAt (createdAt src) dst
  end.

Definition copy_paths (src : Guest) (ps : list Path) (dst : Guest) : Guest :=
  foldr (copy_path src) dst ps.

(** ** Validators

    One message per failing path; the messages are the custom ones of the
    schema where it gives one, Mongoose's otherwise.  The lists below are
    in the order of the schema.  Mongoose collects the messages in the
    order in which it validated the paths, for an update the order of the
    keys of the body, so the list of an answer is one of these up to its
    order; the properties below speak of the messages in a list, never of
    their order. *)

Definition required_msg (custom : string) (v : string) : list string :=
  if JsString.truthy v then [] else [custom].

Definition enum_msg (path : string) (allowed : list string) (v : string)
  : list string :=
  if bool_decide (v ∈ allowed) then []
  else ["`" +:+ v +:+ "` is not a valid enum value for path `" +:+ path +:+ "`."].

Definition validate_name (v : string) : list string :=
  required_msg "El nombre es requerido" v.
Definition validate_email (v : string) : list string :=
  required_msg "El email es requerido" v.
Definition validate_ticketType (v : string) : list string :=
  if JsString.truthy v then enum_msg "ticketType" ticketType_enum v
  else ["El tipo de entrada es requerido"].
Definition validate_qrCode (v : string) : list string :=
  required_msg "Path `qrCode` is required." v.
Definition validate_status (v : string) : list string :=
  enum_msg "status" status_enum v.

(** [doc.validate()]: every path of the document. *)
Definition validate (g : Guest) : list string :=
  validate_name (name g) ++ validate_email (email g)
  ++ validate_ticketType (ticketType g) ++ validate_qrCode (qrCode g)
  ++ validate_status (status g).

(* ===================================================================== *)
(** * Errors and responses ([middleware/errorHandler.js]) *)
(* ===================================================================== *)

(** The properties of a thrown value that [errorHandler] looks at. *)
Record JsError := mkJsError {
  err_name      : string;
  err_message   : string;
  err_code      : option N;
  err_errors    : list string;      (* messages of [err.errors] *)
  err_keyValue  : list string;      (* keys of [err.keyValue] *)
  isOperational : bool;
  statusCode    : option nat
}.

(** [new Error(message)] *)
Definition Error (message : string) : JsError :=
  mkJsError "Error" message None [] [] false None.

(** [new AppError(message, statusCode)] *)
Definition AppError (message : string) (code : nat) : JsError :=
  mkJsError "Error" message None [] [] true (Some code).

(** Mongoose's [ValidationError] *)
Definition ValidationError (messages : list string) : JsError :=
  mkJsError "ValidationError" "Guest validation failed" None messages []
            false None.

(** The driver's duplicate key error (E11000) on a unique index *)
Definition DuplicateKeyError (field : string) : JsError :=
  mkJsError "MongoServerError" "E11000 duplicate key error" (Some 11000%N) []
            [field] false None.

(** Mongoose's [DocumentNotFoundError]: [save()] of a document that is no
    longer in the collection *)
Definition DocumentNotFoundError : JsError :=
  mkJsError "DocumentNotFoundError" "No document found for query" None [] []
            false None.

(** Mongoose's [CastError]: a value that cannot be cast to the type of its
    path *)
Definition CastError (kind value path : string) : JsError :=
  mkJsError "CastError"
            ("Cast to " +:+ kind +:+ " failed for value " +:+ JsString.dquote
             +:+ value +:+ JsString.dquote +:+ " at path " +:+ JsString.dquote
             +:+ path +:+ JsString.dquote)
            None [] [] false None.

(** The engine's [TypeError], thrown by the call of what is no function *)
Definition TypeError (message : string) : JsError :=
  mkJsError "TypeError" message None [] [] false None.

Record StatsReport := mkStats {
  totalGuests      : nat;
  enteredGuests    : nat;
  pendingGuests    : nat;
  vipGuests        : nat;
  generalGuests    : nat;
  invitacionGuests : nat;
  giftsRegistered  : nat
}.

(** What [res.json] is given. *)
Inductive Body :=
| json_guest (message : option string) (data : option (ObjectId * Guest))
      (* { success: true, [message], data: guest } *)
| json_created (message : string) (id : ObjectId) (guest : Guest)
      (qrCodeData : string)
      (* { success: true, message, data: { guest, qrCode } } *)
| json_message (message : string)
      (* { success: true, message } *)
| json_stats (data : StatsReport)
      (* { success: true, data: stats } *)
| json_denied (message : string)
      (* { success: false, message }, written by a middleware *)
| json_error (error : string) (messages : list string) (message : option string).
      (* { success: false, error, [messages], [message] }, by errorHandler *)

Record Response := mkResponse {
  res_status : nat;
  res_json   : Body
}.

(** [err.statusCode || 500] *)
Definition statusCode_or_500 (c : option nat) : nat :=
  match c with
  | Some (S n) => S n
  | _ => 500
  end.

Definition errorHandler (err : JsError) : Response :=
  if bool_decide (err_name err = "ValidationError") then
    mkResponse 400 (json_error "Error de validación" (err_errors err) None)
  else if bool_decide (err_code err = Some 11000%N) then
    let field := default "undefined" (head (err_keyValue err)) in
    mkResponse 400
      (json_error "Error de duplicado" []
                  (Some ("El " +:+ field +:+ " ya existe en el sistema")))
  else if bool_decide (err_name err = "JsonWebTokenError") then
    mkResponse 401 (json_error "Token inválido" [] None)
  else if bool_decide (err_name err = "TokenExpiredError") then
    mkResponse 401 (json_error "Token expirado" [] None)
  else if isOperational err then
    mkResponse (statusCode_or_500 (statusCode err))
               (json_error (err_message err) [] None)
  else
    mkResponse 500 (json_error "Error del servidor" [] None).

(* ===================================================================== *)
(** * The database and the handler monad *)
(* ===================================================================== *)

(** The [guests] collection, keyed by [_id], and the next [_id] the driver
    hands out ([new ObjectId()] never repeats). *)
Record Db := mkDb {
  guests  : gmap ObjectId Guest;
  next_id : ObjectId
}.

(** What a handler reads from its environment while it runs. *)
Record Env := mkEnv {
  Date_now         : Date;             (* [Date.now()], [new Date()] *)
  Math_random      : string;           (* [Math.random().toString(36)] *)
  QRCode_toDataURL : string → string
}.

(** A computation over the database that may [throw]. *)
Definition M (A : Type) : Type := Db → Db * (JsError + A).

#[global] Instance M_ret : MRet M := λ A x db, (db, inr x).
#[global] Instance M_bind : MBind M := λ A B f c db,
  match c db with
  | (db', inr x) => f x db'
  | (db', inl e) => (db', inl e)
  end.

Definition throw {A} (e : JsError) : M A := λ db, (db, inl e).
Definition get_db : M Db := λ db, (db, inr db).
Definition put_guests (gs : gmap ObjectId Guest) : M unit :=
  λ db, (mkDb gs (next_id db), inr tt).
Definition new_ObjectId : M ObjectId :=
  λ db, (mkDb (guests db) (S (next_id db)), inr (next_id db)).

(** [asyncHandler(fn)]: a rejection goes to [next], that is to
    [errorHandler], the only error middleware of the application. *)
Definition asyncHandler (fn : M Response) : Db → Db * Response :=
  λ db,
    match fn db with
    | (db', inr res) => (db', res)
    | (db', inl err) => (db', errorHandler err)
    end.

(* ===================================================================== *)
(** * Documents and the model's statics *)
(* ===================================================================== *)

(** A hydrated document: its [_id], its fields, whether it was ever saved,
    and the paths assigned since it was loaded. *)
Record Document := mkDocument {
  _id           : ObjectId;
  fields        : Guest;
  isNew         : bool;
  modifiedPaths : list Path
}.

Definition assign (p : Path) (f : Guest → Guest) (doc : Document) : Document :=
  mkDocument (_id doc) (f (fields doc)) (isNew doc) (p :: modifiedPaths doc).

(** The unique index on [qrCode]: another document already holds the code. *)
Definition qrCode_taken (gs : gmap ObjectId Guest) (id : ObjectId) (code : string)
  : bool :=
  bool_decide (∃ j g, gs !! j = Some g ∧ j ≠ id ∧ qrCode g = code).

(** ** The [pre('save')] hooks

    Mongoose validates inside [save()] through a [pre('save')] hook of its
    own, [validateBeforeSave], which it puts in front of the hooks of the
    schema (its documentation, on save and validate hooks: all
    [pre('validate')] and [post('validate')] hooks get called before any
    [pre('save')] hook).  A document is therefore validated before any
    [schema.pre('save', ...)] function sees it; what validation must find
    in place has to be put there by a [pre('validate')] hook. *)

(** The built-in hook: [validateBeforeSave]. *)
Definition validateBeforeSave (doc : Document) : M Document :=
  match validate (fields doc) with
  | [] => mret doc
  | messages => throw (ValidationError messages)
  end.

(** The QR code the schema's hook builds:
    [`${Date.now().toString(36)}-${Math.random().toString(36).substring(2, 8)}`] *)
Definition generate_qrCode (env : Env) : string :=
  let timestamp := JsString.toString36 (Date_now env) in
  let randomStr := JsString.substring 2 8 (Math_random env) in
  timestamp +:+ "-" +:+ randomStr.

(** [guestSchema.pre('save', ...)]: gives the document a QR code if it has
    none. *)
Definition guestSchema_pre_save (env : Env) (doc : Document) : M Document :=
  if negb (JsString.truthy (qrCode (fields doc))) then
    mret (assign p_qrCode (set_qrCode (generate_qrCode env)) doc)
  else mret doc.

(** The hooks of [save()], in the order in which they run. *)
Definition pre_save_hooks (env : Env) : list (Document → M Document) :=
  [validateBeforeSave; guestSchema_pre_save env].

Definition run_hooks (hooks : list (Document → M Document)) (doc : Document)
  : M Document :=
  foldl (λ acc hook, acc ≫= hook) (mret doc) hooks.

(** The write of [save()]: an insert for a new document, a [$set] of the
    modified paths for a loaded one. *)
Definition save_write (doc : Document) : M Document :=
  db ← get_db;
  if isNew doc then
    if qrCode_taken (guests db) (_id doc) (qrCode (fields doc)) then
      throw (DuplicateKeyError "qrCode")
    else
      put_guests (<[_id doc := fields doc]> (guests db));;
      mret (mkDocument (_id doc) (fields doc) false [])
  else
    match guests db !! _id doc with
    | None => throw DocumentNotFoundError
    | Some stored =>
        if bool_decide (p_qrCode ∈ modifiedPaths doc)
           && qrCode_taken (guests db) (_id doc) (qrCode (fields doc))
        then throw (DuplicateKeyError "qrCode")
        else
          put_guests (<[_id doc := copy_paths (fields doc) (modifiedPaths doc) stored]>
                        (guests db));;
          mret (mkDocument (_id doc) (fields doc) false [])
    end.

(** [doc.save()] *)
Definition save (env : Env) (doc : Document) : M Document :=
  doc' ← run_hooks (pre_save_hooks env) doc;
  save_write doc'.

(** [Guest.findById(id)] *)
Definition findById (id : ObjectId) : M (option Document) :=
  db ← get_db;
  mret ((λ g, mkDocument id g false []) <$> guests db !! id).

(** [doc.remove()].  The backend declares [mongoose ^7.0.3] in its
    [package.json], and Mongoose 7 has no [Document.prototype.remove]; the
    schema gives the model no method of this name either.  [guest.remove]
    is [undefined], and the call throws before anything reaches the
    database. *)
Definition remove (doc : Document) : M unit :=
  throw (TypeError "guest.remove is not a function").

(** What [Guest.create] is given.  Absent fields are [None]. *)
Record NewGuest := mkNewGuest {
  new_name       : option string;
  new_email      : option string;
  new_phone      : option string;
  new_ticketType : option string;
  new_qrCode     : option string;
  new_createdBy  : ObjectId
}.

(** [new Guest(obj)]: the setters of the schema ([trim], [lowercase]) and
    its defaults. *)
Definition new_Guest (env : Env) (obj : NewGuest) : Guest :=
  {| name       := JsString.trim (default "" (new_name obj));
     email      := JsString.toLowerCase (JsString.trim (default "" (new_email obj)));
     phone      := JsString.trim <$> new_phone obj;
     ticketType := default "" (new_ticketType obj);
     qrCode     := default "" (new_qrCode obj);
     status     := "pendiente";
     gift       := None;
     entryTime  := None;
     createdBy  := new_createdBy obj;
     createdAt  := Date_now env |}.

(** [Guest.create(obj)] *)
Definition Guest_create (env : Env) (obj : NewGuest) : M Document :=
  id ← new_ObjectId;
  save env (mkDocument id (new_Guest env obj) true []).

(** ** Instance methods *)

(** [guestSchema.methods.canEnter] *)
Definition canEnter (doc : Document) : bool :=
  bool_decide (status (fields doc) = "pendiente").

(** [this.status = 'ingresado'; this.entryTime = new Date();] *)
Definition mark_entered (env : Env) (doc : Document) : Document :=
  let doc := assign p_status (set_status "ingresado") doc in
  assign p_entryTime (set_entryTime (Some (Date_now env))) doc.

(** [guestSchema.methods.registerEntry] *)
Definition Guest_registerEntry (env : Env) (doc : Document) : M Document :=
  if negb (canEnter doc) then
    throw (Error "El invitado ya ha ingresado o su entrada está cancelada")
  else save env (mark_entered env doc).

(** [guestSchema.methods.registerGift] *)
Definition Guest_registerGift (env : Env) (giftDescription : option string)
    (doc : Document) : M Document :=
  if negb (bool_decide (ticketType (fields doc) = "invitacion")) then
    throw (Error ("Solo los invitados con tipo " +:+ JsString.dquote +:+ "invitacion"
                  +:+ JsString.dquote +:+ " pueden registrar regalos"))
  else
    let doc := assign p_gift (set_gift giftDescription) doc in
    save env doc.

(** ** [findByIdAndUpdate] *)

(** The update document, [req.body] of [PUT /:id], read against the schema:
    the paths it names and their values.  Mongoose's strict mode drops what
    is not a path of the schema.  The bodies meant are those that give a
    path a string, a number of milliseconds or an [_id], as the path asks;
    a body that gives a path [null] or that holds an update operator
    ([$unset], [$inc], ...) is none of them. *)
Record Patch := mkPatch {
  patch_name       : option string;
  patch_email      : option string;
  patch_phone      : option string;
  patch_ticketType : option string;
  patch_qrCode     : option string;
  patch_status     : option string;
  patch_gift       : option string;
  patch_entryTime  : option Date;
  patch_createdBy  : option ObjectId;
  patch_createdAt  : option Date
}.

(** Casting the update runs the setters of the schema on its values. *)
Definition cast_update (u : Patch) : Patch :=
  {| patch_name       := JsString.trim <$> patch_name u;
     patch_email      := (λ v, JsString.toLowerCase (JsString.trim v)) <$> patch_email u;
     patch_phone      := JsString.trim <$> patch_phone u;
     patch_ticketType := patch_ticketType u;
     patch_qrCode     := patch_qrCode u;
     patch_status     := patch_status u;
     patch_gift       := patch_gift u;
     patch_entryTime  := patch_entryTime u;
     patch_createdBy  := patch_createdBy u;
     patch_createdAt  := patch_createdAt u |}.

Definition on_path {A} (validator : A → list string) (v : option A) : list string :=
  from_option validator [] v.

(** Update validators ([runValidators: true]) look at the paths the update
    names, and at those only. *)
Definition validate_update (u : Patch) : list string :=
  on_path validate_name (patch_name u) ++ on_path validate_email (patch_email u)
  ++ on_path validate_ticketType (patch_ticketType u)
  ++ on_path validate_qrCode (patch_qrCode u)
  ++ on_path validate_status (patch_status u).

Definition set_if {A} (setter : A → Guest → Guest) (v : option A) (g : Guest)
  : Guest :=
  from_option (λ x, setter x g) g v.

(** [$set] of every path the update names. *)
Definition apply_update (u : Patch) (g : Guest) : Guest :=
  set_if set_createdAt (patch_createdAt u)
    (set_if set_createdBy (patch_createdBy u)
      (set_if set_entryTime (Some <$> patch_entryTime u)
        (set_if set_gift (Some <$> patch_gift u)
          (set_if set_status (patch_status u)
            (set_if set_qrCode (patch_qrCode u)
              (set_if set_ticketType (patch_ticketType u)
                (set_if set_phone (Some <$> patch_phone u)
                  (set_if set_email (patch_email u)
                    (set_if set_name (patch_name u) g))))))))).

(** The last millisecond of a JavaScript [Date]: a number beyond it makes
    an invalid date, which Mongoose does not cast. *)
Definition max_Date : N := 8640000000000000.

Definition castable_date (t : Date) : bool := (t <=? max_Date)%N.

(** The path of the update whose value cannot be cast to the type the
    schema gives it, if there is one.  Of what a [Patch] holds, strings and
    an [ObjectId] always can; a number can be cast to a [Date] if it is in
    the range of [Date]. *)
Definition uncastable (u : Patch) : option string :=
  if negb (from_option castable_date true (patch_entryTime u)) then
    Some "entryTime"
  else if negb (from_option castable_date true (patch_createdAt u)) then
    Some "createdAt"
  else None.

(** [Guest.findByIdAndUpdate(id, update, { new: true, runValidators: true })]:
    the updated document, or [null] when there is none with this [_id].
    The update is cast first, then validated, then written. *)
Definition findByIdAndUpdate (id : ObjectId) (update : Patch)
  : M (option Document) :=
  match uncastable update with
  | Some path => throw (CastError "date" "Invalid Date" path)
  | None =>
      let u := cast_update update in
      match validate_update u with
      | (_ :: _) as messages => throw (ValidationError messages)
      | [] =>
          db ← get_db;
          match guests db !! id with
          | None => mret None
          | Some stored =>
              if from_option (qrCode_taken (guests db) id) false (patch_qrCode u)
              then throw (DuplicateKeyError "qrCode")
              else
                let updated := apply_update u stored in
                put_guests (<[id := updated]> (guests db));;
                mret (Some (mkDocument id updated false []))
          end
      end
  end.

(** ** [aggregate] with one [$group] stage on [_id: null] *)

(** [{ $sum: { $cond: [test, 1, 0] } }] over the documents of the group *)
Definition sum_cond (test : Guest → bool) (docs : list Guest) : nat :=
  foldr (λ g acc, (if test g then 1 else 0) + acc) 0 docs.

Definition eq_field (field : Guest → string) (v : string) (g : Guest) : bool :=
  bool_decide (field g = v).

(** The result of the pipeline of [getGuestStats]: one group when the
    collection has documents, none when it is empty. *)
Definition aggregate_stats : M (list StatsReport) :=
  db ← get_db;
  let docs := snd <$> map_to_list (guests db) in
  match docs with
  | [] => mret []
  | _ =>
      mret [ {| totalGuests      := sum_cond (λ _, true) docs;
                enteredGuests    := sum_cond (eq_field status "ingresado") docs;
                pendingGuests    := sum_cond (eq_field status "pendiente") docs;
                vipGuests        := sum_cond (eq_field ticketType "vip") docs;
                generalGuests    := sum_cond (eq_field ticketType "general") docs;
                invitacionGuests := sum_cond (eq_field ticketType "invitacion") docs;
                giftsRegistered  := sum_cond (λ g, negb (bool_decide (gift g = None))) docs
             |} ]
  end.

(* ===================================================================== *)
(** * The access middleware ([middleware/authMiddleware.js]) *)
(* ===================================================================== *)

(** [req.user], as [protect] leaves it. *)
Record User := mkUser {
  user_id : ObjectId;
  role    : string
}.

(** A middleware either answers or calls [next()]. *)
Inductive Next :=
| respond (res : Response)
| next.

(** [canManageGuests] *)
Definition canManageGuests (user : User) : Next :=
  if negb (bool_decide (role user ∈ ["admin"; "staff"])) then
    respond (mkResponse 403 (json_denied "No tiene permisos para gestionar invitados"))
  else next.

(** [checkGuestAccess] *)
Definition checkGuestAccess (user : User) (id : ObjectId) : M Next :=
  guest ← findById id;
  match guest with
  | None => mret (respond (mkResponse 404 (json_denied "Invitado no encontrado")))
  | Some guest =>
      if bool_decide (role user = "admin")
         || bool_decide (createdBy (fields guest) = user_id user)
      then mret next
      else mret (respond (mkResponse 403
                   (json_denied "No tiene permisos para acceder a este invitado")))
  end.

(* ===================================================================== *)
(** * The controllers ([controllers/guestController.js]) *)
(* ===================================================================== *)

(** [req.body] of [POST /api/guests], as [createGuest] destructures it. *)
Record CreateBody := mkCreateBody {
  body_name       : option string;
  body_email      : option string;
  body_phone      : option string;
  body_ticketType : option string
}.

Definition not_found : JsError := AppError "Invitado no encontrado" 404.

(** [req.user.role !== 'admin' && guest.createdBy.toString() !== req.user.id] *)
Definition not_admin_nor_creator (user : User) (guest : Document) : bool :=
  negb (bool_decide (role user = "admin"))
  && negb (bool_decide (createdBy (fields guest) = user_id user)).

Definition createGuest (env : Env) (user : User) (body : CreateBody) : M Response :=
  guest ← Guest_create env
            {| new_name       := body_name body;
               new_email      := body_email body;
               new_phone      := body_phone body;
               new_ticketType := body_ticketType body;
               new_qrCode     := None;
               new_createdBy  := user_id user |};
  let qrCodeData := QRCode_toDataURL env (qrCode (fields guest)) in
  mret (mkResponse 201
          (json_created "Invitado creado exitosamente" (_id guest) (fields guest)
                        qrCodeData)).

Definition getGuest (user : User) (id : ObjectId) : M Response :=
  guest ← findById id;
  match guest with
  | None => throw not_found
  | Some guest =>
      if not_admin_nor_creator user guest then
        throw (AppError "No autorizado para ver este invitado" 403)
      else
        mret (mkResponse 200 (json_guest None (Some (_id guest, fields guest))))
  end.

Definition updateGuest (user : User) (id : ObjectId) (body : Patch) : M Response :=
  guest ← findById id;
  match guest with
  | None => throw not_found
  | Some guest =>
      if not_admin_nor_creator user guest then
        throw (AppError "No autorizado para actualizar este invitado" 403)
      else
        guest ← findByIdAndUpdate id body;
        mret (mkResponse 200
                (json_guest None ((λ d, (_id d, fields d)) <$> guest)))
  end.

Definition deleteGuest (user : User) (id : ObjectId) : M Response :=
  guest ← findById id;
  match guest with
  | None => throw not_found
  | Some guest =>
      if not_admin_nor_creator user guest then
        throw (AppError "No autorizado para eliminar este invitado" 403)
      else
        remove guest;;
        mret (mkResponse 200 (json_message "Invitado eliminado exitosamente"))
  end.

Definition cannot_enter : JsError :=
  AppError "El invitado ya ha ingresado o su entrada está cancelada" 400.

Definition entry_registered (guest : Document) : Response :=
  mkResponse 200
    (json_guest (Some "Entrada registrada exitosamente")
                (Some (_id guest, fields guest))).

Definition registerEntry (env : Env) (id : ObjectId) : M Response :=
  guest ← findById id;
  match guest with
  | None => throw not_found
  | Some guest =>
      if negb (canEnter guest) then
        throw cannot_enter
      else
        guest ← Guest_registerEntry env guest;
        mret (entry_registered guest)
  end.

Definition registerGift (env : Env) (id : ObjectId) (gift : option string)
  : M Response :=
  guest ← findById id;
  match guest with
  | None => throw not_found
  | Some guest =>
      guest ← Guest_registerGift env gift guest;
      mret (mkResponse 200
              (json_guest (Some "Regalo registrado exitosamente")
                          (Some (_id guest, fields guest))))
  end.

Definition no_stats : StatsReport := mkStats 0 0 0 0 0 0 0.

Definition getGuestStats : M Response :=
  stats ← aggregate_stats;
  (* stats[0] || { totalGuests: 0, ... } *)
  mret (mkResponse 200 (json_stats (default no_stats (head stats)))).

(* ===================================================================== *)
(** * The routes ([routes/guestRoutes.js]) *)
(* ===================================================================== *)

(** The requests of the router that [protect] has let through. *)
Inductive Request :=
| GET_stats                                            (* GET /stats *)
| POST_guest (body : CreateBody)                       (* POST / *)
| GET_guest (id : ObjectId)                            (* GET /:id *)
| PUT_guest (id : ObjectId) (body : Patch)             (* PUT /:id *)
| DELETE_guest (id : ObjectId)                         (* DELETE /:id *)
| POST_entry (id : ObjectId)                           (* POST /:id/entry *)
| POST_gift (id : ObjectId) (gift : option string).    (* POST /:id/gift *)

(** A middleware in front of a handler. *)
Definition chain (mw : M Next) (handler : M Response) : Db → Db * Response :=
  λ db,
    match mw db with
    | (db', inr (respond res)) => (db', res)
    | (db', inr next) => asyncHandler handler db'
    | (db', inl err) => (db', errorHandler err)
    end.

Definition router (env : Env) (user : User) (req : Request) : Db → Db * Response :=
  match req with
  | GET_stats => asyncHandler getGuestStats
  | POST_guest body => chain (mret (canManageGuests user)) (createGuest env user body)
  | GET_guest id => chain (checkGuestAccess user id) (getGuest user id)
  | PUT_guest id body => chain (checkGuestAccess user id) (updateGuest user id body)
  | DELETE_guest id => chain (checkGuestAccess user id) (deleteGuest user id)
  | POST_entry id => chain (checkGuestAccess user id) (registerEntry env id)
  | POST_gift id gift => chain (checkGuestAccess user id) (registerGift env id gift)
  end.

(** Requests served one after the other, each with its own environment. *)
Fixpoint serve (calls : list (Env * User * Request)) (db : Db)
  : Db * list Response :=
  match calls with
  | [] => (db, [])
  | (env, user, req) :: calls' =>
      let '(db1, res) := router env user req db in
      let '(db2, ress) := serve calls' db1 in
      (db2, res :: ress)
  end.

(* ===================================================================== *)
(** * [POST /:id/entry] between its awaits *)
(* ===================================================================== *)

(** The handlers of one request run until their next [await]; the database
    operation awaited is carried out, and the request goes on from its
    result at some later turn of the event loop.  Between two of its turns
    other requests take theirs.  The chain [checkGuestAccess, registerEntry]
    awaits three times: [findById] in the middleware, [findById] in the
    controller, and [save()] inside [guest.registerEntry()]. *)
Inductive Pending :=
| at_checkGuestAccess             (* awaiting the middleware's [findById] *)
| at_registerEntry                (* awaiting the controller's [findById] *)
| at_save (guest : Document)      (* checked and assigned; awaiting [save()] *)
| answered (res : Response).

Definition entry_turn (env : Env) (user : User) (id : ObjectId) (st : Pending)
  : Db → Db * Pending :=
  λ db,
    match st with
    | at_checkGuestAccess =>
        match checkGuestAccess user id db with
        | (db', inr (respond res)) => (db', answered res)
        | (db', inr next) => (db', at_registerEntry)
        | (db', inl err) => (db', answered (errorHandler err))
        end
    | at_registerEntry =>
        match findById id db with
        | (db', inr None) => (db', answered (errorHandler not_found))
        | (db', inr (Some guest)) =>
            if negb (canEnter guest) then (db', answered (errorHandler cannot_enter))
            else (db', at_save (mark_entered env guest))
        | (db', inl err) => (db', answered (errorHandler err))
        end
    | at_save guest =>
        match save env guest db with
        | (db', inr guest') => (db', answered (entry_registered guest'))
        | (db', inl err) => (db', answered (errorHandler err))
        end
    | answered res => (db, answered res)
    end.

(** A request in flight. *)
Record Flight := mkFlight {
  fl_env   : Env;
  fl_user  : User;
  fl_id    : ObjectId;
  fl_state : Pending
}.

Definition turn (fl : Flight) (db : Db) : Db * Flight :=
  let '(db', st) := entry_turn (fl_env fl) (fl_user fl) (fl_id fl) (fl_state fl) db in
  (db', mkFlight (fl_env fl) (fl_user fl) (fl_id fl) st).

(** The event loop: [schedule] names, turn after turn, the request that
    goes on. *)
Fixpoint event_loop (schedule : list nat) (flights : list Flight) (db : Db)
  : Db * list Flight :=
  match schedule with
  | [] => (db, flights)
  | i :: schedule' =>
      match flights !! i with
      | None => event_loop schedule' flights db
      | Some fl =>
          let '(db', fl') := turn fl db in
          event_loop schedule' (<[i := fl']> flights) db'
      end
  end.

Definition answer (fl : Flight) : option Response :=
  match fl_state fl with
  | answered res => Some res
  | _ => None
  end.

(** How many of the requests were answered with the HTTP status [code]. *)
Definition answered_with (code : nat) (flights : list Flight) : nat :=
  length (filter (λ fl, res_status <$> answer fl = Some code) flights).

(* ===================================================================== *)
(** * The list, the lookup by QR code, the role middlewares *)
(* ===================================================================== *)

(** [Guest.findOne({ qrCode })]: the first document of the collection that
    has the code. *)
Definition findOne_qrCode (code : string) : M (option Document) :=
  db ← get_db;
  mret ((λ kv : nat * Guest, mkDocument kv.1 kv.2 false [])
          <$> head (filter (λ kv : nat * Guest, qrCode kv.2 = code)
                           (map_to_list (guests db)))).

(** [verifyGuestByQR]; its route has [protect] in front and nothing else. *)
Definition verifyGuestByQR (code : string) : M Response :=
  guest ← findOne_qrCode code;
  match guest with
  | None => throw (AppError "Código QR inválido" 404)
  | Some guest =>
      mret (mkResponse 200 (json_guest None (Some (_id guest, fields guest))))
  end.

(** [req.query] of [GET /api/guests]: the two parameters [getGuests] reads,
    each absent or a string. *)
Record ListQuery := mkListQuery {
  query_status     : option string;
  query_ticketType : option string
}.

(** The filter that [getGuests] hands to [Guest.find]. *)
Record Query := mkQuery {
  by_createdBy  : option ObjectId;
  by_status     : option string;
  by_ticketType : option string
}.

(** [if (req.query.p) query.p = req.query.p]: an empty parameter is falsy
    and filters nothing. *)
Definition if_given (param : option string) : option string :=
  match param with
  | Some v => if JsString.truthy v then Some v else None
  | None => None
  end.

Definition build_query (user : User) (q : ListQuery) : Query :=
  {| by_createdBy  := if negb (bool_decide (role user = "admin"))
                      then Some (user_id user) else None;
     by_status     := if_given (query_status q);
     by_ticketType := if_given (query_ticketType q) |}.

(** The document has, on every path the filter names, the value named. *)
Definition matches (query : Query) (g : Guest) : bool :=
  from_option (λ v, bool_decide (createdBy g = v)) true (by_createdBy query)
  && from_option (λ v, bool_decide (status g = v)) true (by_status query)
  && from_option (λ v, bool_decide (ticketType g = v)) true (by_ticketType query).

(** [Guest.find(query)] *)
Definition Guest_find (query : Query) : M (list (ObjectId * Guest)) :=
  db ← get_db;
  mret (filter (λ kv : nat * Guest, matches query kv.2 = true)
               (map_to_list (guests db))).

(** [.sort('-createdAt')]: the later [createdAt] first. *)
Definition newer_first (a b : ObjectId * Guest) : Prop :=
  (createdAt b.2 ≤ createdAt a.2)%N.

#[global] Instance newer_first_dec a b : Decision (newer_first a b).
Proof. unfold newer_first. apply _. Defined.

Definition sort_createdAt_desc (docs : list (ObjectId * Guest))
  : list (ObjectId * Guest) :=
  merge_sort newer_first docs.

(** [{ success: true, count, data }], sent with the status 200. *)
Record GuestList := mkGuestList {
  list_count : nat;
  list_data  : list (ObjectId * Guest)
}.

(** [getGuests]; its route has [protect] in front and nothing else.
    [populate('createdBy', 'username')] decorates the creator in the answer
    and selects nothing; it is left out, as in [getGuest]. *)
Definition getGuests (user : User) (q : ListQuery) : M GuestList :=
  found ← Guest_find (build_query user q);
  let sorted := sort_createdAt_desc found in
  mret (mkGuestList (length sorted) sorted).

(** [authorize(...roles)] *)
Definition authorize (roles : list string) (user : User) : Next :=
  if negb (bool_decide (role user ∈ roles)) then
    respond (mkResponse 403
               (json_denied "Usuario no autorizado para acceder a esta ruta"))
  else next.

(** [isAdmin] *)
Definition isAdmin (user : User) : Next :=
  if negb (bool_decide (role user = "admin")) then
    respond (mkResponse 403
               (json_denied "Esta ruta requiere privilegios de administrador"))
  else next.

(* ===================================================================== *)
(** * [req.params.id] *)
(* ===================================================================== *)

(** The [:id] of a route is text.  [findById] casts it to an [ObjectId]
    before it asks the database, and the cast throws for a text that is
    none.  The driver's [ObjectId] takes a text of 24 hexadecimal digits
    or of 12 bytes. *)
Definition is_hex (c : ascii) : bool :=
  let n := nat_of_ascii c in
  ((48 <=? n) && (n <=? 57)) || ((65 <=? n) && (n <=? 70))
  || ((97 <=? n) && (n <=? 102)).

Fixpoint every (p : ascii → bool) (s : string) : bool :=
  match s with
  | EmptyString => true
  | String c s' => p c && every p s'
  end.

Definition ObjectId_isValid (text : string) : bool :=
  ((String.length text =? 12) && every (λ c, nat_of_ascii c <? 128) text)
  || ((String.length text =? 24) && every is_hex text).

(** What [req.params.id] is to the cast: the text of an [ObjectId], or a
    text that is none. *)
Inductive Param :=
| well_formed (id : ObjectId)
| malformed (text : string).

(** [Guest.findById(req.params.id)] *)
Definition findById_param (param : Param) : M (option Document) :=
  match param with
  | well_formed id => findById id
  | malformed text => throw (CastError "ObjectId" text "_id")
  end.

(** [checkGuestAccess], from [req.params.id]; what [findById] throws goes
    to [next(error)]. *)
Definition checkGuestAccess_param (user : User) (param : Param) : M Next :=
  guest ← findById_param param;
  match guest with
  | None => mret (respond (mkResponse 404 (json_denied "Invitado no encontrado")))
  | Some guest =>
      if bool_decide (role user = "admin")
         || bool_decide (createdBy (fields guest) = user_id user)
      then mret next
      else mret (respond (mkResponse 403
                   (json_denied "No tiene permisos para acceder a este invitado")))
  end.

(** The five routes with an [:id]. *)
Inductive IdRoute :=
| to_get                              (* GET /:id *)
| to_put (body : Patch)               (* PUT /:id *)
| to_delete                           (* DELETE /:id *)
| to_entry                            (* POST /:id/entry *)
| to_gift (gift : option string).     (* POST /:id/gift *)

Definition on_guest (route : IdRoute) (id : ObjectId) : Request :=
  match route with
  | to_get => GET_guest id
  | to_put body => PUT_guest id body
  | to_delete => DELETE_guest id
  | to_entry => POST_entry id
  | to_gift gift => POST_gift id gift
  end.

(** The controller of a route.  Each of the five begins with
    [await Guest.findById(req.params.id)]. *)
Definition controller (env : Env) (user : User) (route : IdRoute) (param : Param)
  : M Response :=
  match param with
  | malformed text => throw (CastError "ObjectId" text "_id")
  | well_formed id =>
      match route with
      | to_get => getGuest user id
      | to_put body => updateGuest user id body
      | to_delete => deleteGuest user id
      | to_entry => registerEntry env id
      | to_gift gift => registerGift env id gift
      end
  end.

Definition guest_route (env : Env) (user : User) (route : IdRoute) (param : Param)
  : Db → Db * Response :=
  chain (checkGuestAccess_param user param) (controller env user route param).

(* ===================================================================== *)
(** * Vocabulary of the properties *)
(* ===================================================================== *)

(** The user is the one [checkGuestAccess] lets through to the guest. *)
Definition may_access (user : User) (g : Guest) : Prop :=
  role user = "admin" ∨ createdBy g = user_id user.

(** The document passes the validators of the schema. *)
Definition valid (g : Guest) : Prop := validate g = [].

(** The guest after a registered entry. *)
Definition entered (env : Env) (g : Guest) : Guest :=
  set_entryTime (Some (Date_now env)) (set_status "ingresado" g).


(** The route addresses one guest by [:id]. *)
Definition target (req : Request) : option ObjectId :=
  match req with
  | GET_stats | POST_guest _ => None
  | GET_guest id | PUT_guest id _ | DELETE_guest id
  | POST_entry id | POST_gift id _ => Some id
  end.

(** The guest stored under [req.params.id]; a text that is no [ObjectId] is
    the [_id] of none. *)
Definition stored_under (param : Param) (db : Db) : option Guest :=
  match param with
  | well_formed id => guests db !! id
  | malformed _ => None
  end.

#[global] Instance may_access_dec user g : Decision (may_access user g).
Proof. unfold may_access. apply _. Defined.

#[global] Instance valid_dec g : Decision (valid g).
Proof. unfold valid. apply _. Defined.






(** What [createGuest] hands to [Guest.create]. *)
Definition created_by (user : User) (body : CreateBody) : NewGuest :=
  {| new_name       := body_name body;
     new_email      := body_email body;
     new_phone      := body_phone body;
     new_ticketType := body_ticketType body;
     new_qrCode     := None;
     new_createdBy  := user_id user |}.

(** A [POST /:id/entry] as [serve] takes it, and as it arrives at the
    event loop. *)
Definition entry_call (id : ObjectId) (call : Env * User)
  : Env * User * Request :=
  (call.1, call.2, POST_entry id).

Definition arrives (id : ObjectId) (call : Env * User) : Flight :=
  mkFlight call.1 call.2 id at_checkGuestAccess.

Definition answered_flight (id : ObjectId) (call : Env * User) (res : Response)
  : Flight :=
  mkFlight call.1 call.2 id (answered res).

(** The three turns of one request. *)
Definition three_turns (i : nat) : list nat := [i; i; i].

(** The schedule without interleaving: the requests at the positions
    [k], ..., [k + n - 1] take their three turns one request after the
    other. *)
Definition one_after_the_other (k n : nat) : list nat :=
  flat_map three_turns (seq k n).

(** Of the requests, exactly one was answered 200 and all the others 400. *)
Definition exactly_one_success (flights : list Flight) : Prop :=
  answered_with 200 flights = 1
  ∧ answered_with 400 flights = length flights - 1.

(** No two stored guests have the same [qrCode]. *)
Definition unique_codes (db : Db) : Prop :=
  ∀ i j gi gj,
    guests db !! i = Some gi → guests db !! j = Some gj →
    qrCode gi = qrCode gj → i = j.

(** Every stored guest passes the validators of the schema. *)
Definition all_valid (db : Db) : Prop :=
  ∀ i g, guests db !! i = Some g → valid g.

(** The guest has an [entryTime] exactly when its status is ['ingresado']. *)
Definition entry_recorded (g : Guest) : Prop :=
  status g = "ingresado" ↔ is_Some (entryTime g).

Definition all_entries_recorded (db : Db) : Prop :=
  ∀ i g, guests db !! i = Some g → entry_recorded g.

(** The request is no update whose body names [status] or [entryTime]. *)
Definition names_no_entry (req : Request) : Prop :=
  match req with
  | PUT_guest _ body => patch_status body = None ∧ patch_entryTime body = None
  | _ => True
  end.

(** What a request can do to the database: nothing, spend an [_id], insert
    a validated guest under a fresh [_id] with a code nobody has, rewrite a
    guest by a validated update, record an entry, record a gift. *)
Inductive effect (req : Request) (db : Db) : Db → Prop :=
| effect_none : effect req db db
| effect_spent : effect req db (mkDb (guests db) (S (next_id db)))
| effect_created g' :
    valid g' → status g' = "pendiente" → entryTime g' = None →
    qrCode_taken (guests db) (next_id db) (qrCode g') = false →
    effect req db (mkDb (<[next_id db := g']> (guests db)) (S (next_id db)))
| effect_updated id body g :
    req = PUT_guest id body → guests db !! id = Some g →
    validate_update (cast_update body) = [] →
    from_option (qrCode_taken (guests db) id) false
                (patch_qrCode (cast_update body)) = false →
    effect req db
      (mkDb (<[id := apply_update (cast_update body) g]> (guests db)) (next_id db))
| effect_entered env id g :
    guests db !! id = Some g → status g = "pendiente" →
    effect req db (mkDb (<[id := entered env g]> (guests db)) (next_id db))
| effect_gift id gift g :
    guests db !! id = Some g → ticketType g = "invitacion" →
    effect req db (mkDb (<[id := set_gift gift g]> (guests db)) (next_id db)).

(** The guest is one the user may see in the list: every guest for an
    admin, the guests a user created for anybody else; and it has the
    status and the ticket type the query asks for, where it asks. *)
Definition listed_for (user : User) (q : ListQuery) (g : Guest) : Prop :=
  (role user = "admin" ∨ createdBy g = user_id user)
  ∧ (∀ s, query_status q = Some s → s ≠ EmptyString → status g = s)
  ∧ (∀ t, query_ticketType q = Some t → t ≠ EmptyString → ticketType g = t).

(** The query without parameters. *)
Definition no_filter : ListQuery := mkListQuery None None.

(** The value of a digit of base 36, and of a string of such digits read
    from the left after the value [v] (what [parseInt(s, 36)] computes on
    them). *)
Definition digit36_value (c : ascii) : N :=
  let k := N_of_ascii c in
  if (k <? 58)%N then (k - 48)%N else (k - 87)%N.

Fixpoint value36_from (v : N) (s : string) : N :=
  match s with
  | EmptyString => v
  | String c s' => value36_from (v * 36 + digit36_value c)%N s'
  end.

Definition value36 (s : string) : N := value36_from 0 s.

(** The string has no hyphen. *)
Fixpoint no_hyphen (s : string) : Prop :=
  match s with
  | EmptyString => True
  | String c s' => c ≠ "-"%char ∧ no_hyphen s'
  end.



(** The report counted on the collection itself. *)
Definition counted (db : Db) : StatsReport :=
  let count (P : nat * Guest → Prop) `{∀ kv, Decision (P kv)} :=
    size (filter P (guests db)) in
  {| totalGuests      := size (guests db);
     enteredGuests    := count (λ kv, status kv.2 = "ingresado");
     pendingGuests    := count (λ kv, status kv.2 = "pendiente");
     vipGuests        := count (λ kv, ticketType kv.2 = "vip");
     generalGuests    := count (λ kv, ticketType kv.2 = "general");
     invitacionGuests := count (λ kv, ticketType kv.2 = "invitacion");
     giftsRegistered  := count (λ kv, gift kv.2 ≠ None) |}.

(** The HTTP statuses the guest routes answer with. *)
Definition guest_route_statuses : list nat := [200; 201; 400; 403; 404; 500].

(** The query for the guests of one status. *)
Definition of_status (s : string) : ListQuery := mkListQuery (Some s) None.

(** A body for [PUT /:id] that names [createdBy] and nothing else. *)
Definition only_createdBy (other : ObjectId) : Patch :=
  mkPatch None None None None None None None None (Some other) None.

(** ** Sample data *)

Module Sample.

Definition env : Env :=
  mkEnv 1700000000000%N "0.4fzyo82mvyr" (λ code, "data:image/png;base64," +:+ code).
Definition later : Env :=
  mkEnv 1700000060000%N "0.9k2xw1c7qpd" (λ code, "data:image/png;base64," +:+ code).

Definition root   : User := mkUser 1 "admin".
Definition staffA : User := mkUser 7 "staff".
Definition staffB : User := mkUser 8 "staff".

(** A [vip] guest and an [invitacion] guest, both created by [staffA]. *)
Definition ana : Guest :=
  mkGuest "Ana" "ana@x.com" None "vip" "loyw3v28-4fzyo8" "pendiente"
          None None 7 1700000000000%N.
Definition bea : Guest :=
  mkGuest "Bea" "bea@x.com" (Some "1234567890") "invitacion" "loyw3v29-k2xw1c"
          "pendiente" None None 7 1700000000001%N.

Definition db : Db := mkDb (<[0 := ana]> (<[1 := bea]> ∅)) 2.

Definition empty : Db := mkDb ∅ 0.

(** Three users at the door, for the same guest. *)
Definition door : list (Env * User) :=
  [(env, staffA); (later, root); (later, staffA)].

(** Two requests whose turns interleave: both look the guest up before
    either saves. *)
Definition interleaved : list nat := [0; 1; 0; 1; 0; 1].

(** A body for [POST /] with the three required fields. *)
Definition ana_body : CreateBody :=
  mkCreateBody (Some "Ana") (Some "ana@x.com") None (Some "general").

(** A body for [PUT /:id] that names the three fields of provenance. *)
Definition forged : Patch :=
  mkPatch None None None None (Some "forged") None None None (Some 8) (Some 0%N).


(** A body for [PUT /:id] that names [name] only. *)
Definition rename : Patch :=
  mkPatch (Some " Ana Maria ") None None None None None None None None None.

(** An evening at the door: an entry, a rename, a gift, a [DELETE]. *)
Definition evening : list (Env * User * Request) :=
  [(env, staffA, POST_entry 0);
   (later, staffA, PUT_guest 0 rename);
   (later, staffA, POST_gift 1 (Some "Book"));
   (later, root, DELETE_guest 0)].

End Sample.
(* ===================================================================== *)
(** * Properties *)
(* ===================================================================== *)

Ltac unfold_M :=
  unfold mbind, M_bind, mret, M_ret, throw, get_db, put_guests in *.

(** ** The middleware *)

Section access.
Context (user : User) (id : ObjectId) (db : Db).

Lemma findById_eq :
  findById id db = (db, inr ((λ g, mkDocument id g false []) <$> guests db !! id)).
Proof. reflexivity. Qed.

Lemma checkGuestAccess_missing :
  guests db !! id = None →
  checkGuestAccess user id db =
    (db, inr (respond (mkResponse 404 (json_denied "Invitado no encontrado")))).
Proof. intros H. unfold checkGuestAccess, findById. unfold_M. by rewrite H. Qed.

Lemma checkGuestAccess_allowed g :
  guests db !! id = Some g → may_access user g →
  checkGuestAccess user id db = (db, inr next).
Proof.
  intros H Hacc. unfold checkGuestAccess, findById. unfold_M. rewrite H. simpl.
  destruct Hacc as [Hadm | Hown].
  - by rewrite (bool_decide_eq_true_2 _ Hadm).
  - rewrite (bool_decide_eq_true_2 _ Hown). by rewrite orb_true_r.
Qed.

Lemma checkGuestAccess_denied g :
  guests db !! id = Some g → ¬ may_access user g →
  checkGuestAccess user id db =
    (db, inr (respond (mkResponse 403
                (json_denied "No tiene permisos para acceder a este invitado")))).
Proof.
  intros H Hacc. unfold checkGuestAccess, findById. unfold_M. rewrite H. simpl.
  unfold may_access in Hacc.
  rewrite !bool_decide_eq_false_2; [done | tauto | tauto].
Qed.

Lemma chain_missing handler :
  guests db !! id = None →
  chain (checkGuestAccess user id) handler db =
    (db, mkResponse 404 (json_denied "Invitado no encontrado")).
Proof. intros H. unfold chain. by rewrite checkGuestAccess_missing. Qed.

Lemma chain_denied handler g :
  guests db !! id = Some g → ¬ may_access user g →
  chain (checkGuestAccess user id) handler db =
    (db, mkResponse 403
           (json_denied "No tiene permisos para acceder a este invitado")).
Proof. intros H Hacc. unfold chain. by rewrite (checkGuestAccess_denied g). Qed.

Lemma chain_allowed handler g :
  guests db !! id = Some g → may_access user g →
  chain (checkGuestAccess user id) handler db = asyncHandler handler db.
Proof. intros H Hacc. unfold chain. by rewrite (checkGuestAccess_allowed g). Qed.

Lemma not_admin_nor_creator_false g :
  may_access user g →
  not_admin_nor_creator user (mkDocument id g false []) = false.
Proof.
  intros [Hadm | Hown]; unfold not_admin_nor_creator; simpl.
  - by rewrite (bool_decide_eq_true_2 _ Hadm).
  - rewrite (bool_decide_eq_true_2 _ Hown). by rewrite andb_false_r.
Qed.
End access.

(** ** [save()] of a loaded document *)

Lemma run_hooks_valid env doc db :
  valid (fields doc) →
  run_hooks (pre_save_hooks env) doc db = (db, inr doc).
Proof.
  intros Hv. unfold run_hooks, pre_save_hooks. simpl. unfold_M.
  unfold validateBeforeSave. rewrite Hv. unfold_M.
  unfold guestSchema_pre_save.
  assert (JsString.truthy (qrCode (fields doc)) = true) as ->; [| done].
  unfold valid, validate in Hv.
  apply app_eq_nil in Hv as [_ Hv]. apply app_eq_nil in Hv as [_ Hv].
  apply app_eq_nil in Hv as [_ Hv]. apply app_eq_nil in Hv as [Hv _].
  unfold validate_qrCode, required_msg in Hv. by destruct (JsString.truthy _).
Qed.

Lemma run_hooks_invalid env doc db :
  validate (fields doc) ≠ [] →
  run_hooks (pre_save_hooks env) doc db
  = (db, inl (ValidationError (validate (fields doc)))).
Proof.
  intros Hv. unfold run_hooks, pre_save_hooks. simpl. unfold_M.
  unfold validateBeforeSave. by destruct (validate (fields doc)).
Qed.

Lemma save_loaded env doc db stored :
  valid (fields doc) → isNew doc = false →
  guests db !! _id doc = Some stored →
  p_qrCode ∉ modifiedPaths doc →
  save env doc db =
    (mkDb (<[_id doc := copy_paths (fields doc) (modifiedPaths doc) stored]> (guests db))
          (next_id db),
     inr (mkDocument (_id doc) (fields doc) false [])).
Proof.
  intros Hv Hnew Hst Hqr. unfold save. unfold mbind at 1. unfold M_bind.
  rewrite run_hooks_valid by done.
  unfold save_write. unfold_M. rewrite Hnew, Hst.
  by rewrite (bool_decide_eq_false_2 _ Hqr).
Qed.

Lemma valid_iff g :
  valid g ↔
  validate_name (name g) = [] ∧ validate_email (email g) = []
  ∧ validate_ticketType (ticketType g) = [] ∧ validate_qrCode (qrCode g) = []
  ∧ validate_status (status g) = [].
Proof.
  unfold valid, validate. rewrite !app_nil. tauto.
Qed.

Lemma valid_mark_entered env id g :
  valid g → valid (fields (mark_entered env (mkDocument id g false []))).
Proof.
  rewrite !valid_iff. simpl. intros (? & ? & ? & ? & _). done.
Qed.

Lemma valid_set_gift v g : valid g → valid (set_gift v g).
Proof. rewrite !valid_iff. by simpl. Qed.

(** ** [POST /:id/entry] *)

Lemma registerEntry_pendiente env id db g :
  guests db !! id = Some g → valid g → status g = "pendiente" →
  asyncHandler (registerEntry env id) db =
    (mkDb (<[id := entered env g]> (guests db)) (next_id db),
     entry_registered (mkDocument id (entered env g) false [])).
Proof.
  intros Hg Hv Hst. unfold asyncHandler, registerEntry.
  unfold mbind at 1. unfold M_bind. rewrite findById_eq, Hg. simpl.
  unfold canEnter. simpl. rewrite (bool_decide_eq_true_2 _ Hst). simpl.
  unfold mbind at 1. unfold M_bind, Guest_registerEntry, canEnter. simpl.
  rewrite (bool_decide_eq_true_2 _ Hst). simpl.
  erewrite save_loaded; [| by apply valid_mark_entered | done | exact Hg |].
  - simpl. unfold mret, M_ret. by destruct g.
  - simpl. apply (bool_decide_unpack _). reflexivity.
Qed.

Lemma registerEntry_not_pendiente env id db g :
  guests db !! id = Some g → status g ≠ "pendiente" →
  asyncHandler (registerEntry env id) db = (db, errorHandler cannot_enter).
Proof.
  intros Hg Hst. unfold asyncHandler, registerEntry.
  unfold mbind at 1. unfold M_bind. rewrite findById_eq, Hg. simpl.
  unfold canEnter. simpl. by rewrite (bool_decide_eq_false_2 _ Hst).
Qed.

(** C1.  For a stored, schema-valid guest and a user [checkGuestAccess]
    lets through (an admin, or the guest's creator), [POST /:id/entry]
    answers 200 exactly when the guest's status was
    ['pendiente'].  When it was, the stored guest afterwards has status
    ['ingresado'] and [entryTime] set to the time of the call, and every
    further [POST /:id/entry] on it is refused with 400 and the message of
    the invalid transition, the database staying as it is.  When it was
    not, the answer is 400 and the database stays as it is. *)
Theorem registerEntry_state_machine env user id db g :
  guests db !! id = Some g → may_access user g → valid g →
  let out := router env user (POST_entry id) db in
  (res_status out.2 = 200 ↔ status g = "pendiente")
  ∧ (status g = "pendiente" →
       ∃ g', guests out.1 !! id = Some g'
             ∧ status g' = "ingresado"
             ∧ entryTime g' = Some (Date_now env)
             ∧ ∀ env2 user2, may_access user2 g' →
                 router env2 user2 (POST_entry id) out.1
                 = (out.1,
                    mkResponse 400
                      (json_error
                         "El invitado ya ha ingresado o su entrada está cancelada"
                         [] None)))
  ∧ (status g ≠ "pendiente" → out.1 = db ∧ res_status out.2 = 400).
Proof.
  intros Hg Hacc Hv out. subst out. simpl.
  rewrite (chain_allowed user id db _ g Hg Hacc).
  destruct (decide (status g = "pendiente")) as [Hst | Hst].
  - rewrite (registerEntry_pendiente env id db g Hg Hv Hst). simpl.
    split; [done |]. split; [| done]. intros _.
    exists (entered env g). rewrite lookup_insert_eq.
    repeat split; try done.
    intros env2 user2 Hacc2.
    set (db' := mkDb _ _).
    assert (guests db' !! id = Some (entered env g)) as Hg'
        by (subst db'; simpl; apply lookup_insert_eq).
    rewrite (chain_allowed user2 id db' _ _ Hg' Hacc2).
    by rewrite (registerEntry_not_pendiente env2 id db' _ Hg').
  - rewrite (registerEntry_not_pendiente env id db g Hg Hst). simpl.
    split; [| split]; [| done | done].
    split; [discriminate | done].
Qed.

Lemma registerEntry_state_machine_witness :
  guests Sample.db !! 0 = Some Sample.ana
  ∧ may_access Sample.staffA Sample.ana
  ∧ valid Sample.ana
  ∧ res_status (router Sample.env Sample.staffA (POST_entry 0) Sample.db).2 = 200.
Proof.
  assert (guests Sample.db !! 0 = Some Sample.ana) as Hg by reflexivity.
  assert (may_access Sample.staffA Sample.ana) as Hacc by (right; reflexivity).
  assert (valid Sample.ana) as Hv by reflexivity.
  refine (conj Hg (conj Hacc (conj Hv _))).
  apply (registerEntry_state_machine Sample.env Sample.staffA 0 Sample.db
           Sample.ana Hg Hacc Hv).
  reflexivity.
Defined.

(** ** [POST /:id/gift] *)

Lemma registerGift_not_invitacion env id gift db g :
  guests db !! id = Some g → ticketType g ≠ "invitacion" →
  asyncHandler (registerGift env id gift) db
  = (db, mkResponse 500 (json_error "Error del servidor" [] None)).
Proof.
  intros Hg Ht. unfold asyncHandler, registerGift.
  unfold mbind at 1. unfold M_bind. rewrite findById_eq, Hg. simpl.
  unfold mbind at 1. unfold M_bind, Guest_registerGift. simpl.
  by rewrite (bool_decide_eq_false_2 _ Ht).
Qed.

Lemma registerGift_invitacion env id gift db g :
  guests db !! id = Some g → valid g → ticketType g = "invitacion" →
  asyncHandler (registerGift env id gift) db
  = (mkDb (<[id := set_gift gift g]> (guests db)) (next_id db),
     mkResponse 200
       (json_guest (Some "Regalo registrado exitosamente")
                   (Some (id, set_gift gift g)))).
Proof.
  intros Hg Hv Ht. unfold asyncHandler, registerGift.
  unfold mbind at 1. unfold M_bind. rewrite findById_eq, Hg. simpl.
  unfold mbind at 1. unfold M_bind, Guest_registerGift. simpl.
  rewrite (bool_decide_eq_true_2 _ Ht). simpl.
  erewrite save_loaded; [| by apply valid_set_gift | done | exact Hg |].
  - simpl. unfold mret, M_ret. by destruct g.
  - simpl. apply (bool_decide_unpack _). reflexivity.
Qed.

(** C2.  [POST /:id/gift] by the creator of a stored [vip] guest: the model
    method throws a plain [Error], which [errorHandler] does not recognise
    as operational, so the answer is 500 ['Error del servidor'] and not a
    400; the guest is left as it was. *)
Theorem registerGift_vip_answers_500 :
  ticketType Sample.ana = "vip"
  ∧ router Sample.env Sample.staffA (POST_gift 0 (Some "Book")) Sample.db
    = (Sample.db, mkResponse 500 (json_error "Error del servidor" [] None)).
Proof. split; vm_compute; reflexivity. Qed.

(** ** What [errorHandler] answers *)

Lemma errorHandler_403 err :
  res_status (errorHandler err) = 403 →
  isOperational err = true ∧ statusCode err = Some 403.
Proof.
  unfold errorHandler. repeat case_bool_decide; simpl; try discriminate.
  destruct (isOperational err); simpl; [| discriminate].
  destruct (statusCode err) as [[| n] |]; simpl; try discriminate.
  by intros ->.
Qed.

Lemma save_error_not_operational env doc db db' err :
  save env doc db = (db', inl err) → isOperational err = false.
Proof.
  unfold save. unfold mbind at 1. unfold M_bind.
  destruct (decide (validate (fields doc) = [])) as [Hv | Hv].
  - rewrite run_hooks_valid by done.
    unfold save_write. unfold_M.
    destruct (isNew doc).
    + destruct (qrCode_taken _ _ _); intros [= <- <-]; done.
    + destruct (guests db !! _id doc); [| intros [= <- <-]; done].
      destruct (_ && _); intros [= <- <-]; done.
  - rewrite run_hooks_invalid by done. by intros [= <- <-].
Qed.

Lemma findByIdAndUpdate_error_not_operational id u db db' err :
  findByIdAndUpdate id u db = (db', inl err) → isOperational err = false.
Proof.
  unfold findByIdAndUpdate.
  destruct (uncastable u); [by intros [= <- <-] |].
  destruct (validate_update (cast_update u)); [| by intros [= <- <-]].
  unfold_M. destruct (guests db !! id); [| done].
  destruct (from_option _ _ _); by intros [= <- <-].
Qed.

Lemma not_operational_never_403 err :
  isOperational err = false → res_status (errorHandler err) ≠ 403.
Proof. intros H Hs. apply errorHandler_403 in Hs as [Hop _]. congruence. Qed.

(** ** Ownership *)

Lemma staff_is_not_admin (user : User) g :
  role user = "staff" → user_id user ≠ createdBy g → ¬ may_access user g.
Proof. intros Hr Hne [Ha | Ho]; [rewrite Hr in Ha; discriminate | congruence]. Qed.

Lemma router_target_denied env user req db id g :
  target req = Some id → guests db !! id = Some g → ¬ may_access user g →
  router env user req db
  = (db, mkResponse 403
           (json_denied "No tiene permisos para acceder a este invitado")).
Proof.
  intros Ht Hg Hacc.
  destruct req; simpl in Ht; try discriminate; injection Ht as ->; simpl;
    by apply (chain_denied user id db _ g).
Qed.

Lemma router_target_missing env user req db id :
  target req = Some id → guests db !! id = None →
  router env user req db
  = (db, mkResponse 404 (json_denied "Invitado no encontrado")).
Proof.
  intros Ht Hg.
  destruct req; simpl in Ht; try discriminate; injection Ht as ->; simpl;
    by apply chain_missing.
Qed.

(** ** The handlers behind [checkGuestAccess] *)

Lemma getGuest_allowed user id db g :
  guests db !! id = Some g → may_access user g →
  asyncHandler (getGuest user id) db
  = (db, mkResponse 200 (json_guest None (Some (id, g)))).
Proof.
  intros Hg Hacc. unfold asyncHandler, getGuest.
  unfold mbind at 1. unfold M_bind. rewrite findById_eq, Hg. simpl.
  by rewrite (not_admin_nor_creator_false user id g Hacc).
Qed.

(** [guest.remove()] throws, and the thrown [TypeError] is answered by the
    default branch of [errorHandler]. *)
Lemma deleteGuest_allowed user id db g :
  guests db !! id = Some g → may_access user g →
  asyncHandler (deleteGuest user id) db
  = (db, mkResponse 500 (json_error "Error del servidor" [] None)).
Proof.
  intros Hg Hacc. unfold asyncHandler, deleteGuest.
  unfold mbind at 1. unfold M_bind. rewrite findById_eq, Hg. simpl.
  by rewrite (not_admin_nor_creator_false user id g Hacc).
Qed.

Lemma updateGuest_allowed user id body db g :
  guests db !! id = Some g → may_access user g →
  asyncHandler (updateGuest user id body) db
  = asyncHandler
      (guest ← findByIdAndUpdate id body;
       mret (mkResponse 200
               (json_guest None ((λ d, (_id d, fields d)) <$> guest)))) db.
Proof.
  intros Hg Hacc. unfold asyncHandler at 1. unfold updateGuest.
  unfold mbind at 1. unfold M_bind. rewrite findById_eq, Hg. simpl.
  by rewrite (not_admin_nor_creator_false user id g Hacc).
Qed.

(** The four outcomes of an update that reaches [findByIdAndUpdate]. *)
Lemma updateGuest_outcome user id body db g :
  guests db !! id = Some g → may_access user g →
  let u := cast_update body in
  asyncHandler (updateGuest user id body) db =
    match uncastable body with
    | Some path => (db, mkResponse 500 (json_error "Error del servidor" [] None))
    | None =>
        if bool_decide (validate_update u = []) then
          if from_option (qrCode_taken (guests db) id) false (patch_qrCode u) then
            (db, errorHandler (DuplicateKeyError "qrCode"))
          else
            (mkDb (<[id := apply_update u g]> (guests db)) (next_id db),
             mkResponse 200 (json_guest None (Some (id, apply_update u g))))
        else (db, errorHandler (ValidationError (validate_update u)))
    end.
Proof.
  intros Hg Hacc u. rewrite (updateGuest_allowed user id body db g Hg Hacc).
  unfold asyncHandler. unfold mbind at 1. unfold M_bind, findByIdAndUpdate.
  destruct (uncastable body) as [path |]; [done |].
  fold u. destruct (validate_update u) eqn:Hv; simpl.
  - unfold_M. rewrite Hg. by destruct (from_option _ _ _).
  - done.
Qed.

Lemma registerEntry_never_403 env id db :
  res_status (asyncHandler (registerEntry env id) db).2 ≠ 403.
Proof.
  unfold asyncHandler, registerEntry.
  unfold mbind at 1. unfold M_bind. rewrite findById_eq.
  destruct (guests db !! id) as [g |]; simpl; [| discriminate].
  destruct (negb _); simpl; [discriminate |].
  unfold mbind at 1. unfold M_bind, Guest_registerEntry.
  destruct (negb _); simpl; [discriminate |].
  destruct (save _ _ _) as [db' [err | d]] eqn:Hs; simpl; [| discriminate].
  eapply not_operational_never_403, save_error_not_operational, Hs.
Qed.

Lemma registerGift_never_403 env id gift db :
  res_status (asyncHandler (registerGift env id gift) db).2 ≠ 403.
Proof.
  unfold asyncHandler, registerGift.
  unfold mbind at 1. unfold M_bind. rewrite findById_eq.
  destruct (guests db !! id) as [g |]; simpl; [| discriminate].
  unfold mbind at 1. unfold M_bind, Guest_registerGift.
  destruct (negb _); simpl; [discriminate |].
  destruct (save _ _ _) as [db' [err | d]] eqn:Hs; simpl; [| discriminate].
  eapply not_operational_never_403, save_error_not_operational, Hs.
Qed.

Lemma createGuest_never_403 env user body db :
  res_status (asyncHandler (createGuest env user body) db).2 ≠ 403.
Proof.
  unfold asyncHandler, createGuest.
  unfold mbind at 1. unfold M_bind, Guest_create.
  unfold mbind at 1. unfold M_bind, new_ObjectId.
  destruct (save _ _ _) as [db' [err | d]] eqn:Hs; simpl; [| discriminate].
  eapply not_operational_never_403, save_error_not_operational, Hs.
Qed.

Lemma getGuestStats_200 db :
  ∃ report, asyncHandler getGuestStats db = (db, mkResponse 200 (json_stats report)).
Proof.
  unfold asyncHandler, getGuestStats. unfold mbind at 1. unfold M_bind.
  unfold aggregate_stats. unfold_M.
  destruct (snd <$> map_to_list (guests db)); simpl; eauto.
Qed.

Lemma admin_never_403 env user req db :
  role user = "admin" → res_status (router env user req db).2 ≠ 403.
Proof.
  intros Hadm.
  assert (∀ id handler,
            (∀ g, guests db !! id = Some g →
                  res_status (asyncHandler handler db).2 ≠ 403) →
            res_status (chain (checkGuestAccess user id) handler db).2 ≠ 403)
    as Hchain.
  { intros id handler Hh. destruct (guests db !! id) as [g |] eqn:Hg.
    - rewrite (chain_allowed user id db _ g Hg (or_introl Hadm)). by eapply Hh.
    - by rewrite chain_missing. }
  destruct req as [| body | id | id body | id | id | id gift]; simpl.
  - by destruct (getGuestStats_200 db) as [r ->].
  - unfold chain, canManageGuests. unfold_M. rewrite Hadm. simpl.
    apply createGuest_never_403.
  - apply Hchain. intros g Hg.
    by rewrite (getGuest_allowed user id db g Hg (or_introl Hadm)).
  - apply Hchain. intros g Hg.
    rewrite (updateGuest_outcome user id body db g Hg (or_introl Hadm)).
    destruct (uncastable body); [simpl; discriminate |].
    case_bool_decide; [destruct (from_option _ _ _) |]; simpl; discriminate.
  - apply Hchain. intros g Hg.
    by rewrite (deleteGuest_allowed user id db g Hg (or_introl Hadm)).
  - apply Hchain. intros g _. apply registerEntry_never_403.
  - apply Hchain. intros g _. apply registerGift_never_403.
Qed.

(** C5.  A request that addresses a stored guest, sent by a user whose role
    is ['staff'] and who is not the guest's [createdBy], is answered 403 by
    [checkGuestAccess] and the database is left as it was: this holds for
    [GET], [PUT], [DELETE /:id], [POST /:id/entry] and [POST /:id/gift]
    alike.  A user whose role is ['admin'] is never answered 403, whatever
    the request and whoever created the guest. *)
Theorem ownership_isolation env user req db :
  (∀ id g, target req = Some id → guests db !! id = Some g →
           role user = "staff" → user_id user ≠ createdBy g →
           router env user req db
           = (db, mkResponse 403
                    (json_denied "No tiene permisos para acceder a este invitado")))
  ∧ (role user = "admin" → res_status (router env user req db).2 ≠ 403).
Proof.
  split.
  - intros id g Ht Hg Hr Hne.
    eapply router_target_denied; eauto using staff_is_not_admin.
  - apply admin_never_403.
Qed.

Lemma ownership_isolation_witness :
  router Sample.env Sample.staffB (DELETE_guest 0) Sample.db
  = (Sample.db, mkResponse 403
                  (json_denied "No tiene permisos para acceder a este invitado"))
  ∧ res_status (router Sample.env Sample.root (DELETE_guest 0) Sample.db).2 ≠ 403.
Proof.
  split.
  - apply (proj1 (ownership_isolation Sample.env Sample.staffB (DELETE_guest 0)
                    Sample.db) 0 Sample.ana);
      [reflexivity | reflexivity | reflexivity | discriminate].
  - apply (proj2 (ownership_isolation Sample.env Sample.root (DELETE_guest 0)
                    Sample.db)).
    reflexivity.
Defined.

(** ** [req.params.id] *)

(** With the text of an [ObjectId] the five routes are those of [router]. *)
Lemma guest_route_well_formed env user route id :
  guest_route env user route (well_formed id)
  = router env user (on_guest route id).
Proof. by destruct route. Qed.

Lemma target_on_guest route id : target (on_guest route id) = Some id.
Proof. by destruct route. Qed.

(** C6, as the code has it.  A request of one of the five routes with an
    [:id] under which no guest is stored is answered the same whoever sends
    it, owner or not, admin or not, and the database is left as it was.
    If the [:id] is the text of an [ObjectId], the answer is 404
    ['Invitado no encontrado']: [checkGuestAccess] looks the guest up first
    and compares [createdBy] only when it found one.  If the [:id] is no
    [ObjectId], the lookup of [checkGuestAccess] throws a [CastError] and
    the answer is 500 ['Error del servidor']. *)
Theorem missing_guest_answer env user route param db :
  stored_under param db = None →
  guest_route env user route param db
  = (db,
     match param with
     | well_formed _ => mkResponse 404 (json_denied "Invitado no encontrado")
     | malformed _ => mkResponse 500 (json_error "Error del servidor" [] None)
     end).
Proof.
  destruct param as [id | text]; simpl; intros Hg.
  - rewrite guest_route_well_formed.
    apply (router_target_missing _ _ _ _ id (target_on_guest route id) Hg).
  - reflexivity.
Qed.

Lemma missing_guest_answer_witness :
  guest_route Sample.env Sample.staffB (to_gift (Some "Book")) (well_formed 5)
    Sample.db
  = (Sample.db, mkResponse 404 (json_denied "Invitado no encontrado")).
Proof.
  apply (missing_guest_answer Sample.env Sample.staffB (to_gift (Some "Book"))
           (well_formed 5) Sample.db).
  reflexivity.
Defined.

(** C6, as stated, fails: ["abc"] is no [ObjectId], so no guest has it as
    its [_id]; [GET /abc] is answered 500, not 404. *)
Lemma malformed_id_is_not_404 :
  ObjectId_isValid "abc" = false
  ∧ stored_under (malformed "abc") Sample.db = None
  ∧ guest_route Sample.env Sample.staffB to_get (malformed "abc") Sample.db
    = (Sample.db, mkResponse 500 (json_error "Error del servidor" [] None)).
Proof. split; [reflexivity |]. split; reflexivity. Qed.

(** ** [PUT /:id] *)

Lemma set_if_other {A B} (proj : Guest → B) (setter : A → Guest → Guest) v g :
  (∀ x g', proj (setter x g') = proj g') → proj (set_if setter v g) = proj g.
Proof. intros H. destruct v; simpl; [apply H | done]. Qed.

Lemma apply_update_qrCode u g :
  qrCode (apply_update u g) = default (qrCode g) (patch_qrCode u).
Proof.
  unfold apply_update.
  do 4 (rewrite set_if_other by done).
  rewrite (set_if_other qrCode set_status) by done.
  destruct (patch_qrCode u); simpl; [done |].
  by do 4 (rewrite set_if_other by done).
Qed.

Lemma apply_update_createdBy u g :
  createdBy (apply_update u g) = default (createdBy g) (patch_createdBy u).
Proof.
  unfold apply_update.
  rewrite set_if_other by done.
  destruct (patch_createdBy u); simpl; [done |].
  by do 8 (rewrite set_if_other by done).
Qed.

Lemma apply_update_createdAt u g :
  createdAt (apply_update u g) = default (createdAt g) (patch_createdAt u).
Proof.
  unfold apply_update.
  destruct (patch_createdAt u); simpl; [done |].
  by do 9 (rewrite set_if_other by done).
Qed.

Lemma apply_update_status u g :
  status (apply_update u g) = default (status g) (patch_status u).
Proof.
  unfold apply_update.
  do 4 (rewrite set_if_other by done).
  destruct (patch_status u); simpl; [done |].
  by do 5 (rewrite set_if_other by done).
Qed.

(** The outcomes of [PUT /:id] for a user [checkGuestAccess] lets through, seen
    from the stored guest. *)
Lemma updateGuest_stored env user id body db g :
  guests db !! id = Some g → may_access user g →
  let out := router env user (PUT_guest id body) db in
  (res_status out.2 = 200
   ∧ out.1 = mkDb (<[id := apply_update (cast_update body) g]> (guests db)) (next_id db))
  ∨ (res_status out.2 ≠ 200 ∧ out.1 = db).
Proof.
  intros Hg Hacc out. subst out. simpl.
  rewrite (chain_allowed user id db _ g Hg Hacc).
  rewrite (updateGuest_outcome user id body db g Hg Hacc).
  destruct (uncastable body); [by right |].
  case_bool_decide; [destruct (from_option _ _ _) |]; simpl; auto.
Qed.

(** C3, as the code has it.  [PUT /:id] hands [req.body] to
    [findByIdAndUpdate] as it came.  After an update by a user the check
    lets through, each of [qrCode], [createdBy] and [createdAt] of the
    stored guest has its former value if the body does not name it; if the
    body names it and the update is accepted (200), it has the value the
    body gives.  An update that is refused leaves the guest as it was. *)
Theorem updateGuest_frame env user id body db g :
  guests db !! id = Some g → may_access user g →
  let out := router env user (PUT_guest id body) db in
  ∃ g', guests out.1 !! id = Some g'
    ∧ (patch_qrCode body = None → qrCode g' = qrCode g)
    ∧ (patch_createdBy body = None → createdBy g' = createdBy g)
    ∧ (patch_createdAt body = None → createdAt g' = createdAt g)
    ∧ (res_status out.2 = 200 →
         qrCode g' = default (qrCode g) (patch_qrCode body)
         ∧ createdBy g' = default (createdBy g) (patch_createdBy body)
         ∧ createdAt g' = default (createdAt g) (patch_createdAt body))
    ∧ (res_status out.2 ≠ 200 → g' = g).
Proof.
  intros Hg Hacc out.
  destruct (updateGuest_stored env user id body db g Hg Hacc) as [[Hs Hdb] | [Hs Hdb]];
    fold out in Hs, Hdb; rewrite Hdb.
  - rewrite Hs.
    exists (apply_update (cast_update body) g). simpl. rewrite lookup_insert_eq.
    rewrite apply_update_qrCode, apply_update_createdBy, apply_update_createdAt.
    change (patch_qrCode (cast_update body)) with (patch_qrCode body).
    change (patch_createdBy (cast_update body)) with (patch_createdBy body).
    change (patch_createdAt (cast_update body)) with (patch_createdAt body).
    split; [done |].
    split; [by intros -> |]. split; [by intros -> |]. split; [by intros -> |].
    split; [done | congruence].
  - exists g. split; [done |].
    split; [done |]. split; [done |]. split; [done |].
    split; [done | done].
Qed.

Lemma updateGuest_frame_witness :
  ∃ g', guests (router Sample.env Sample.staffA (PUT_guest 0 Sample.rename)
                  Sample.db).1 !! 0 = Some g'
        ∧ qrCode g' = qrCode Sample.ana
        ∧ createdBy g' = createdBy Sample.ana
        ∧ createdAt g' = createdAt Sample.ana.
Proof.
  destruct (updateGuest_frame Sample.env Sample.staffA 0 Sample.rename
              Sample.db Sample.ana eq_refl (or_intror eq_refl))
    as (g' & Hg' & Hq & Hb & Ha & _).
  exists g'. repeat split; [exact Hg' | by apply Hq | by apply Hb | by apply Ha].
Defined.

(** C3, as stated, fails: the creator of a guest sends a body that names
    [qrCode], [createdBy] and [createdAt]; the update is accepted and the
    stored guest has the three new values. *)
Lemma updateGuest_overwrites_provenance :
  may_access Sample.staffA Sample.ana
  ∧ guests Sample.db !! 0 = Some Sample.ana
  ∧ res_status (router Sample.env Sample.staffA (PUT_guest 0 Sample.forged)
                  Sample.db).2 = 200
  ∧ ∃ g', guests (router Sample.env Sample.staffA (PUT_guest 0 Sample.forged)
                    Sample.db).1 !! 0 = Some g'
          ∧ qrCode g' ≠ qrCode Sample.ana
          ∧ createdBy g' ≠ createdBy Sample.ana
          ∧ createdAt g' ≠ createdAt Sample.ana.
Proof.
  split; [by right |]. split; [done |]. split; [by vm_compute |].
  eexists. split; [by vm_compute |]. simpl. repeat split; discriminate.
Qed.

(** ** The status over a run of requests *)









(** [checkGuestAccess] in front of a handler has three outcomes. *)
Lemma chain_outcome user id handler db :
  chain (checkGuestAccess user id) handler db
  = (db, mkResponse 404 (json_denied "Invitado no encontrado"))
  ∨ chain (checkGuestAccess user id) handler db
    = (db, mkResponse 403
             (json_denied "No tiene permisos para acceder a este invitado"))
  ∨ ∃ g, guests db !! id = Some g ∧ may_access user g
         ∧ chain (checkGuestAccess user id) handler db = asyncHandler handler db.
Proof.
  destruct (guests db !! id) as [g |] eqn:Hg.
  - destruct (decide (may_access user g)) as [Hacc | Hacc].
    + right. right. exists g. eauto using chain_allowed.
    + right. left. by apply (chain_denied user id db _ g).
  - left. by apply chain_missing.
Qed.

(** ** [save()] whatever the document *)

Lemma run_hooks_outcome env doc db :
  run_hooks (pre_save_hooks env) doc db = (db, inr doc) ∧ valid (fields doc)
  ∨ run_hooks (pre_save_hooks env) doc db
    = (db, inl (ValidationError (validate (fields doc))))
    ∧ ¬ valid (fields doc).
Proof.
  destruct (decide (valid (fields doc))) as [Hv | Hv].
  - left. by rewrite run_hooks_valid.
  - right. by rewrite run_hooks_invalid.
Qed.

Lemma save_new_outcome env doc db :
  isNew doc = true →
  ∃ res, save env doc db = (db, inl res)
    ∨ save env doc db
      = (mkDb (<[_id doc := fields doc]> (guests db)) (next_id db),
         inr (mkDocument (_id doc) (fields doc) false []))
      ∧ valid (fields doc)
      ∧ qrCode_taken (guests db) (_id doc) (qrCode (fields doc)) = false.
Proof.
  intros Hnew.
  destruct (run_hooks_outcome env doc db) as [[Hr Hv] | [Hr Hv]].
  - destruct (qrCode_taken (guests db) (_id doc) (qrCode (fields doc))) eqn:Ht;
      exists (DuplicateKeyError "qrCode"); [left | right; split; [| done]];
      unfold save; unfold mbind at 1; unfold M_bind; rewrite Hr;
      unfold save_write; unfold_M; by rewrite Hnew, Ht.
  - exists (ValidationError (validate (fields doc))). left.
    unfold save. unfold mbind at 1. unfold M_bind. by rewrite Hr.
Qed.

Lemma validate_mark_entered env id g :
  status g = "pendiente" →
  validate (fields (mark_entered env (mkDocument id g false []))) = validate g.
Proof. intros Hs. unfold validate. simpl. by rewrite Hs. Qed.

Lemma registerEntry_outcome env id db g :
  guests db !! id = Some g →
  (asyncHandler (registerEntry env id) db).1 = db
  ∨ status g = "pendiente"
    ∧ (asyncHandler (registerEntry env id) db).1
      = mkDb (<[id := entered env g]> (guests db)) (next_id db).
Proof.
  intros Hg.
  destruct (decide (status g = "pendiente")) as [Hs | Hs].
  - destruct (decide (valid g)) as [Hv | Hv].
    + right. by rewrite (registerEntry_pendiente env id db g).
    + left. unfold asyncHandler, registerEntry.
      unfold mbind at 1. unfold M_bind. rewrite findById_eq, Hg. simpl.
      unfold canEnter. simpl. rewrite (bool_decide_eq_true_2 _ Hs). simpl.
      unfold mbind at 1. unfold M_bind, Guest_registerEntry, canEnter. simpl.
      rewrite (bool_decide_eq_true_2 _ Hs). simpl.
      unfold save. unfold mbind at 1. unfold M_bind.
      rewrite run_hooks_invalid; [done |].
      by rewrite validate_mark_entered.
  - left. by rewrite (registerEntry_not_pendiente env id db g).
Qed.

Lemma registerGift_outcome env id gift db g :
  guests db !! id = Some g →
  (asyncHandler (registerGift env id gift) db).1 = db
  ∨ (asyncHandler (registerGift env id gift) db).1
    = mkDb (<[id := set_gift gift g]> (guests db)) (next_id db).
Proof.
  intros Hg.
  destruct (decide (ticketType g = "invitacion")) as [Ht | Ht].
  - destruct (decide (valid g)) as [Hv | Hv].
    + right. by rewrite (registerGift_invitacion env id gift db g).
    + left. unfold asyncHandler, registerGift.
      unfold mbind at 1. unfold M_bind. rewrite findById_eq, Hg. simpl.
      unfold mbind at 1. unfold M_bind, Guest_registerGift. simpl.
      rewrite (bool_decide_eq_true_2 _ Ht). simpl.
      unfold save. unfold mbind at 1. unfold M_bind.
      by rewrite run_hooks_invalid.
  - left. by rewrite (registerGift_not_invitacion env id gift db g).
Qed.

Lemma createGuest_db env user body db :
  (asyncHandler (createGuest env user body) db).1
  = (save env (mkDocument (next_id db) (new_Guest env (created_by user body)) true [])
          (mkDb (guests db) (S (next_id db)))).1.
Proof.
  unfold asyncHandler, createGuest.
  unfold mbind at 1. unfold M_bind, Guest_create.
  unfold mbind at 1. unfold M_bind, new_ObjectId. fold (created_by user body).
  by destruct (save _ _ _) as [db' [err | d]].
Qed.



Lemma serve_cons env user req calls db :
  serve ((env, user, req) :: calls) db
  = ((serve calls (router env user req db).1).1,
     (router env user req db).2 :: (serve calls (router env user req db).1).2).
Proof.
  simpl. destruct (router env user req db) as [db1 res]. simpl.
  by destruct (serve calls db1).
Qed.





(** ** [GET /stats] *)

Lemma sum_cond_Permutation test (l l' : list Guest) :
  l ≡ₚ l' → sum_cond test l = sum_cond test l'.
Proof.
  induction 1 as [| x l l' _ IH | x y l | l l' l'' _ IH1 _ IH2]; simpl;
    [done | by rewrite IH | lia | congruence].
Qed.

Lemma sum_cond_all (docs : list Guest) : sum_cond (λ _, true) docs = length docs.
Proof. induction docs as [| g docs IH]; simpl; [done | by rewrite IH]. Qed.

(** [$sum] of a [$cond] over the collection counts the documents that pass
    the test. *)
Lemma sum_cond_size test (m : gmap nat Guest) :
  sum_cond test (snd <$> map_to_list m)
  = size (filter (λ kv : nat * Guest, test kv.2 = true) m).
Proof.
  induction m as [| i g m Hi IH] using map_ind.
  - by rewrite map_to_list_empty, map_filter_empty, map_size_empty.
  - rewrite (sum_cond_Permutation test _ (g :: (snd <$> map_to_list m))).
    2: { by rewrite map_to_list_insert. }
    simpl. rewrite IH. destruct (test g) eqn:Hg.
    + rewrite map_filter_insert_True by done.
      rewrite map_size_insert_None; [done |].
      apply map_lookup_filter_None_2. by left.
    + rewrite map_filter_insert_False by (simpl; congruence).
      by rewrite delete_id.
Qed.

Lemma aggregate_stats_nonempty db :
  guests db ≠ ∅ →
  aggregate_stats db =
    (db,
     inr [ let docs := snd <$> map_to_list (guests db) in
           {| totalGuests      := sum_cond (λ _, true) docs;
              enteredGuests    := sum_cond (eq_field status "ingresado") docs;
              pendingGuests    := sum_cond (eq_field status "pendiente") docs;
              vipGuests        := sum_cond (eq_field ticketType "vip") docs;
              generalGuests    := sum_cond (eq_field ticketType "general") docs;
              invitacionGuests := sum_cond (eq_field ticketType "invitacion") docs;
              giftsRegistered  :=
                sum_cond (λ g, negb (bool_decide (gift g = None))) docs |} ]).
Proof.
  intros Hne. unfold aggregate_stats. unfold_M.
  destruct (map_to_list (guests db)) as [| kv l] eqn:Hl; [| done].
  by apply map_to_list_empty_iff in Hl.
Qed.

Lemma aggregate_stats_empty db :
  guests db = ∅ → aggregate_stats db = (db, inr []).
Proof.
  intros He. unfold aggregate_stats. unfold_M.
  by rewrite He, map_to_list_empty.
Qed.

Lemma size_filter_field (field : Guest → string) v (m : gmap nat Guest) :
  size (filter (λ kv : nat * Guest, eq_field field v kv.2 = true) m)
  = size (filter (λ kv : nat * Guest, field kv.2 = v) m).
Proof.
  f_equal. apply map_filter_ext. intros i g _. simpl. unfold eq_field.
  by rewrite bool_decide_eq_true.
Qed.

Lemma size_filter_gift (m : gmap nat Guest) :
  size (filter (λ kv : nat * Guest, negb (bool_decide (gift kv.2 = None)) = true) m)
  = size (filter (λ kv : nat * Guest, gift kv.2 ≠ None) m).
Proof.
  f_equal. apply map_filter_ext. intros i g _. simpl.
  rewrite negb_true_iff. by rewrite bool_decide_eq_false.
Qed.


(** C10.  On an empty collection the pipeline of [getGuestStats] yields no
    group, and [GET /stats] still answers 200, with the report of the
    [||] fallback: the seven counters are 0. *)
Theorem getGuestStats_empty env user n :
  aggregate_stats (mkDb ∅ n) = (mkDb ∅ n, inr [])
  ∧ router env user GET_stats (mkDb ∅ n)
    = (mkDb ∅ n,
       mkResponse 200
         (json_stats {| totalGuests := 0; enteredGuests := 0; pendingGuests := 0;
                        vipGuests := 0; generalGuests := 0;
                        invitacionGuests := 0; giftsRegistered := 0 |})).
Proof.
  split.
  - by apply aggregate_stats_empty.
  - simpl. unfold asyncHandler, getGuestStats. unfold mbind at 1. unfold M_bind.
    by rewrite aggregate_stats_empty.
Qed.

(** ** [POST /]: creation and the QR code *)

Lemma toString36_digits_nonempty fuel n acc :
  acc ≠ EmptyString → JsString.toString36_digits fuel n acc ≠ EmptyString.
Proof.
  revert n acc. induction fuel as [| fuel IH]; intros n acc Hacc; simpl; [done |].
  destruct (_ =? _)%N; [done | by apply IH].
Qed.

Lemma toString36_nonempty n : JsString.toString36 n ≠ EmptyString.
Proof.
  unfold JsString.toString36. simpl.
  destruct (_ =? _)%N; [done | by apply toString36_digits_nonempty].
Qed.

(** The code that the hook of the schema builds is never empty. *)
Lemma generate_qrCode_nonempty env : generate_qrCode env ≠ EmptyString.
Proof.
  unfold generate_qrCode.
  pose proof (toString36_nonempty (Date_now env)) as H.
  by destruct (JsString.toString36 (Date_now env)).
Qed.

Lemma truthy_nonempty s : s ≠ EmptyString → JsString.truthy s = true.
Proof. by destruct s. Qed.

(** The hook of the schema, taken alone, gives a document without a code
    the generated one. *)
Lemma guestSchema_pre_save_assigns env doc db :
  qrCode (fields doc) = EmptyString →
  guestSchema_pre_save env doc db
  = (db, inr (assign p_qrCode (set_qrCode (generate_qrCode env)) doc)).
Proof. intros H. unfold guestSchema_pre_save. by rewrite H. Qed.

(** A document without a code does not pass [validateBeforeSave]. *)
Lemma validate_without_qrCode g :
  qrCode g = EmptyString → In "Path `qrCode` is required." (validate g).
Proof.
  intros H. unfold validate. rewrite !in_app_iff.
  right. right. right. left. rewrite H. by left.
Qed.

(** [createGuest] never hands [Guest.create] a code, validation runs
    before the hook that would make one: the request is refused. *)
Lemma createGuest_rejected env user body db :
  asyncHandler (createGuest env user body) db
  = (mkDb (guests db) (S (next_id db)),
     mkResponse 400
       (json_error "Error de validación"
                   (validate (new_Guest env (created_by user body))) None)).
Proof.
  unfold asyncHandler, createGuest.
  unfold mbind at 1. unfold M_bind, Guest_create.
  unfold mbind at 1. unfold M_bind, new_ObjectId.
  fold (created_by user body).
  unfold save. unfold mbind at 1. unfold M_bind.
  rewrite run_hooks_invalid; [done |].
  intros Hv. simpl in Hv.
  pose proof (validate_without_qrCode (new_Guest env (created_by user body)) eq_refl)
    as Hin.
  rewrite Hv in Hin. destruct Hin.
Qed.

(** Had the hook run ahead of the validation, a body with a name, an
    email and a ticket type of the enum would have passed it with the
    generated code. *)
Lemma hook_before_validation env id obj db :
  let doc := mkDocument id (new_Guest env obj) true [] in
  new_qrCode obj = None →
  validate_name (name (fields doc)) = [] →
  validate_email (email (fields doc)) = [] →
  validate_ticketType (ticketType (fields doc)) = [] →
  run_hooks [guestSchema_pre_save env; validateBeforeSave] doc db
  = (db, inr (assign p_qrCode (set_qrCode (generate_qrCode env)) doc)).
Proof.
  intros doc Hq Hn He Ht. unfold run_hooks. simpl. unfold_M.
  rewrite guestSchema_pre_save_assigns by (simpl; by rewrite Hq).
  unfold validateBeforeSave, validate. simpl in *. rewrite Hn, He, Ht. simpl.
  unfold validate_qrCode, required_msg.
  by rewrite (truthy_nonempty _ (generate_qrCode_nonempty env)).
Qed.

(** C8.  [POST /] by a staff user with a name, an email and the ticket
    type ['general'], on an empty collection: [createGuest] passes no
    [qrCode], [save()] validates the document before the hook of the schema
    would give it one, and [qrCode] is required; the answer is 400 with the
    message of the missing [qrCode] and nothing is stored. *)
Theorem createGuest_without_qrCode_is_refused :
  canManageGuests Sample.staffA = next
  ∧ router Sample.env Sample.staffA (POST_guest Sample.ana_body) Sample.empty
    = (mkDb ∅ 1,
       mkResponse 400
         (json_error "Error de validación" ["Path `qrCode` is required."] None)).
Proof. split; by vm_compute. Qed.

(** ** [POST /:id/entry], served and interleaved *)

Lemma serve_refused calls db id g :
  guests db !! id = Some g → status g ≠ "pendiente" →
  Forall (λ call : Env * User, may_access call.2 g) calls →
  serve (entry_call id <$> calls) db
  = (db, (λ _, errorHandler cannot_enter) <$> calls).
Proof.
  intros Hg Hs Hcalls.
  induction Hcalls as [| [env user] calls Hacc _ IH]; [done |].
  rewrite fmap_cons. unfold entry_call at 1. rewrite serve_cons. simpl.
  rewrite (chain_allowed user id db _ g Hg Hacc).
  rewrite (registerEntry_not_pendiente env id db g Hg Hs). simpl.
  by rewrite IH.
Qed.

Lemma serve_entries env user calls db id g :
  guests db !! id = Some g → valid g → status g = "pendiente" →
  Forall (λ call : Env * User, may_access call.2 g) ((env, user) :: calls) →
  serve (entry_call id <$> (env, user) :: calls) db
  = (mkDb (<[id := entered env g]> (guests db)) (next_id db),
     entry_registered (mkDocument id (entered env g) false [])
       :: ((λ _, errorHandler cannot_enter) <$> calls)).
Proof.
  intros Hg Hv Hs Hcalls. apply Forall_cons in Hcalls as [Hacc Hcalls].
  rewrite fmap_cons. unfold entry_call at 1. rewrite serve_cons. simpl.
  rewrite (chain_allowed user id db _ g Hg Hacc).
  rewrite (registerEntry_pendiente env id db g Hg Hv Hs). simpl.
  rewrite (serve_refused calls _ id (entered env g)); [done | | done | done].
  simpl. apply lookup_insert_eq.
Qed.

Lemma registerEntry_pendiente_save env id db g :
  guests db !! id = Some g → status g = "pendiente" →
  asyncHandler (registerEntry env id) db
  = match save env (mark_entered env (mkDocument id g false [])) db with
    | (db', inr guest) => (db', entry_registered guest)
    | (db', inl err) => (db', errorHandler err)
    end.
Proof.
  intros Hg Hs. unfold asyncHandler, registerEntry.
  unfold mbind at 1. unfold M_bind. rewrite findById_eq, Hg. simpl.
  unfold canEnter. simpl. rewrite (bool_decide_eq_true_2 _ Hs). simpl.
  unfold mbind at 1. unfold M_bind, Guest_registerEntry, canEnter. simpl.
  rewrite (bool_decide_eq_true_2 _ Hs). simpl.
  by destruct (save _ _ _) as [db' [err | guest]].
Qed.

Lemma first_turn_missing env user id db :
  guests db !! id = None →
  entry_turn env user id at_checkGuestAccess db
  = (db, answered (mkResponse 404 (json_denied "Invitado no encontrado"))).
Proof. intros Hg. unfold entry_turn. by rewrite checkGuestAccess_missing. Qed.

Lemma first_turn_denied env user id db g :
  guests db !! id = Some g → ¬ may_access user g →
  entry_turn env user id at_checkGuestAccess db
  = (db, answered (mkResponse 403
           (json_denied "No tiene permisos para acceder a este invitado"))).
Proof.
  intros Hg Hacc. unfold entry_turn. by rewrite (checkGuestAccess_denied _ _ _ g).
Qed.

Lemma first_turn_allowed env user id db g :
  guests db !! id = Some g → may_access user g →
  entry_turn env user id at_checkGuestAccess db = (db, at_registerEntry).
Proof.
  intros Hg Hacc. unfold entry_turn. by rewrite (checkGuestAccess_allowed _ _ _ g).
Qed.

Lemma second_turn_pendiente env user id db g :
  guests db !! id = Some g → status g = "pendiente" →
  entry_turn env user id at_registerEntry db
  = (db, at_save (mark_entered env (mkDocument id g false []))).
Proof.
  intros Hg Hs. unfold entry_turn. rewrite findById_eq, Hg. simpl.
  unfold canEnter. simpl. by rewrite (bool_decide_eq_true_2 _ Hs).
Qed.

Lemma second_turn_not_pendiente env user id db g :
  guests db !! id = Some g → status g ≠ "pendiente" →
  entry_turn env user id at_registerEntry db
  = (db, answered (errorHandler cannot_enter)).
Proof.
  intros Hg Hs. unfold entry_turn. rewrite findById_eq, Hg. simpl.
  unfold canEnter. simpl. by rewrite (bool_decide_eq_false_2 _ Hs).
Qed.

(** The three turns of a request, taken without another request in
    between, are the request as the router serves it. *)
Lemma entry_turns_router env user id db :
  let t1 := entry_turn env user id at_checkGuestAccess db in
  let t2 := entry_turn env user id t1.2 t1.1 in
  entry_turn env user id t2.2 t2.1
  = ((router env user (POST_entry id) db).1,
     answered (router env user (POST_entry id) db).2).
Proof.
  intros t1 t2. subst t1 t2. unfold router.
  destruct (guests db !! id) as [g |] eqn:Hg.
  - destruct (decide (may_access user g)) as [Hacc | Hacc].
    + rewrite (chain_allowed user id db _ g Hg Hacc).
      rewrite (first_turn_allowed env user id db g Hg Hacc). cbn [fst snd].
      destruct (decide (status g = "pendiente")) as [Hs | Hs].
      * rewrite (registerEntry_pendiente_save env id db g Hg Hs).
        rewrite (second_turn_pendiente env user id db g Hg Hs).
        cbn [fst snd]. unfold entry_turn.
        by destruct (save _ _ _) as [db' [err | guest]].
      * rewrite (registerEntry_not_pendiente env id db g Hg Hs).
        by rewrite (second_turn_not_pendiente env user id db g Hg Hs).
    + rewrite (chain_denied user id db _ g Hg Hacc).
      by rewrite (first_turn_denied env user id db g Hg Hacc).
  - rewrite (chain_missing user id db _ Hg).
    by rewrite (first_turn_missing env user id db Hg).
Qed.

Lemma event_loop_app s1 s2 flights db :
  event_loop (s1 ++ s2) flights db
  = event_loop s2 (event_loop s1 flights db).2 (event_loop s1 flights db).1.
Proof.
  revert flights db. induction s1 as [| i s1 IH]; intros flights db; simpl; [done |].
  destruct (flights !! i) as [fl |]; [| apply IH].
  destruct (turn fl db) as [db' fl']. apply IH.
Qed.

Lemma event_loop_turn i s flights db fl :
  flights !! i = Some fl →
  event_loop (i :: s) flights db
  = event_loop s (<[i := (turn fl db).2]> flights) (turn fl db).1.
Proof. intros H. simpl. rewrite H. by destruct (turn fl db). Qed.

Lemma turn_eq fl db :
  turn fl db
  = ((entry_turn (fl_env fl) (fl_user fl) (fl_id fl) (fl_state fl) db).1,
     mkFlight (fl_env fl) (fl_user fl) (fl_id fl)
       (entry_turn (fl_env fl) (fl_user fl) (fl_id fl) (fl_state fl) db).2).
Proof. unfold turn. by destruct (entry_turn _ _ _ _ _). Qed.

Lemma three_turns_router id call db :
  let t1 := turn (arrives id call) db in
  let t2 := turn t1.2 t1.1 in
  turn t2.2 t2.1
  = ((router call.1 call.2 (POST_entry id) db).1,
     answered_flight id call (router call.1 call.2 (POST_entry id) db).2).
Proof.
  intros t1 t2. subst t1 t2. rewrite !turn_eq. cbn [fst snd].
  cbn [fl_env fl_user fl_id fl_state arrives].
  pose proof (entry_turns_router call.1 call.2 id db) as H. cbv zeta in H.
  by rewrite H.
Qed.

Lemma event_loop_three_turns pre call rest id db :
  event_loop (three_turns (length pre)) (pre ++ arrives id call :: rest) db
  = ((router call.1 call.2 (POST_entry id) db).1,
     pre ++ answered_flight id call (router call.1 call.2 (POST_entry id) db).2
         :: rest).
Proof.
  pose proof (three_turns_router id call db) as H. cbv zeta in H.
  unfold three_turns.
  rewrite (event_loop_turn _ _ _ _ (arrives id call))
    by apply list_lookup_middle, eq_refl.
  rewrite insert_app_r_alt, Nat.sub_diag by done. cbn [insert list_insert].
  rewrite (event_loop_turn _ _ _ _ (turn (arrives id call) db).2)
    by apply list_lookup_middle, eq_refl.
  rewrite insert_app_r_alt, Nat.sub_diag by done. cbn [insert list_insert].
  erewrite event_loop_turn by apply list_lookup_middle, eq_refl.
  rewrite insert_app_r_alt, Nat.sub_diag by done. cbn [insert list_insert].
  rewrite H. done.
Qed.

Lemma one_after_the_other_S k n :
  one_after_the_other k (S n) = three_turns k ++ one_after_the_other (S k) n.
Proof. reflexivity. Qed.

(** Without interleaving the event loop answers as [serve] does. *)
Lemma event_loop_one_after_the_other id calls pre db :
  event_loop (one_after_the_other (length pre) (length calls))
             (pre ++ (arrives id <$> calls)) db
  = ((serve (entry_call id <$> calls) db).1,
     pre ++ zip_with (answered_flight id) calls
                     (serve (entry_call id <$> calls) db).2).
Proof.
  revert pre db. induction calls as [| call calls IH]; intros pre db.
  - done.
  - change (length (call :: calls)) with (S (length calls)).
    rewrite one_after_the_other_S, event_loop_app, fmap_cons.
    rewrite event_loop_three_turns. cbn [fst snd].
    rewrite (cons_middle _ pre), app_assoc.
    replace (S (length pre)) with (length (pre ++ [answered_flight id call
               (router call.1 call.2 (POST_entry id) db).2]))
      by (rewrite length_app; simpl; lia).
    rewrite IH, <- app_assoc. rewrite fmap_cons.
    change (entry_call id call) with (call.1, call.2, POST_entry id).
    by rewrite serve_cons.
Qed.

Lemma answered_with_cons code fl flights :
  answered_with code (fl :: flights)
  = (if bool_decide (res_status <$> answer fl = Some code) then 1 else 0)
    + answered_with code flights.
Proof.
  unfold answered_with. rewrite filter_cons.
  case_bool_decide; by case_decide.
Qed.

Lemma answered_with_refused id code res (calls : list (Env * User)) :
  answered_with code (zip_with (answered_flight id) calls ((λ _, res) <$> calls))
  = if bool_decide (res_status res = code) then length calls else 0.
Proof.
  induction calls as [| call calls IH].
  - by case_bool_decide.
  - rewrite fmap_cons. cbn [zip_with]. rewrite answered_with_cons, IH.
    cbn [answered_flight answer fl_state fmap option_fmap option_map length].
    repeat case_bool_decide; simplify_eq; done.
Qed.

(** C9, as the code has it.  When the N requests [POST /:id/entry] for a
    stored, schema-valid guest of status ['pendiente'], each by a user the
    check lets through, take their turns one request after the other (none
    starts before the one before it was answered), exactly one of them is
    answered 200 and the N-1 others are answered 400. *)
Theorem entries_one_after_the_other calls db id g :
  guests db !! id = Some g → valid g → status g = "pendiente" →
  calls ≠ [] →
  Forall (λ call : Env * User, may_access call.2 g) calls →
  exactly_one_success
    (event_loop (one_after_the_other 0 (length calls)) (arrives id <$> calls) db).2.
Proof.
  intros Hg Hv Hs Hne Hcalls.
  pose proof (event_loop_one_after_the_other id calls [] db) as H.
  simpl in H. rewrite H. clear H. simpl.
  destruct calls as [| [env user] calls]; [done |].
  rewrite (serve_entries env user calls db id g Hg Hv Hs Hcalls). simpl.
  unfold exactly_one_success. rewrite !answered_with_cons.
  rewrite !answered_with_refused. simpl.
  rewrite length_zip_with, length_fmap. lia.
Qed.

Lemma entries_one_after_the_other_witness :
  exactly_one_success
    (event_loop (one_after_the_other 0 (length Sample.door))
                (arrives 0 <$> Sample.door) Sample.db).2.
Proof.
  apply (entries_one_after_the_other Sample.door Sample.db 0 Sample.ana).
  - reflexivity.
  - reflexivity.
  - reflexivity.
  - discriminate.
  - repeat constructor; by right.
Defined.

(** C9, as stated, fails: two requests [POST /:id/entry] for the same
    pending guest, whose lookups both come before either [save()], are both
    answered 200. *)
Lemma interleaved_entries_both_succeed :
  status Sample.ana = "pendiente"
  ∧ answered_with 200
      (event_loop Sample.interleaved
                  (arrives 0 <$> [(Sample.env, Sample.staffA); (Sample.later, Sample.root)])
                  Sample.db).2 = 2
  ∧ ¬ exactly_one_success
        (event_loop Sample.interleaved
                    (arrives 0 <$> [(Sample.env, Sample.staffA); (Sample.later, Sample.root)])
                    Sample.db).2.
Proof.
  split; [done |]. split; [by vm_compute |].
  intros [H _]. vm_compute in H. discriminate.
Qed.

(* ===================================================================== *)
(** * Further properties of the model, the controllers and the middlewares *)
(* ===================================================================== *)

(** ** What a request does to the database *)

Lemma registerGift_effect env id gift db g :
  guests db !! id = Some g →
  (asyncHandler (registerGift env id gift) db).1 = db
  ∨ ticketType g = "invitacion"
    ∧ (asyncHandler (registerGift env id gift) db).1
      = mkDb (<[id := set_gift gift g]> (guests db)) (next_id db).
Proof.
  intros Hg.
  destruct (decide (ticketType g = "invitacion")) as [Ht | Ht].
  - destruct (registerGift_outcome env id gift db g Hg) as [H | H]; auto.
  - left. by rewrite (registerGift_not_invitacion env id gift db g).
Qed.

Lemma createGuest_effect env user body db :
  effect (POST_guest body) db (asyncHandler (createGuest env user body) db).1.
Proof.
  rewrite createGuest_db.
  match goal with |- context [save env ?d ?b] =>
    destruct (save_new_outcome env d b eq_refl) as [res [H | (H & Hv & Ht)]]
  end; rewrite H; simpl.
  - apply effect_spent.
  - by apply effect_created.
Qed.

Lemma router_effect env user req db :
  effect req db (router env user req db).1.
Proof.
  assert (∀ id handler,
            (∀ g, guests db !! id = Some g → may_access user g →
                  effect req db (asyncHandler handler db).1) →
            effect req db (chain (checkGuestAccess user id) handler db).1)
    as Hchain.
  { intros id handler Hh.
    destruct (chain_outcome user id handler db) as [-> | [-> | (g & Hg & Hacc & ->)]];
      eauto using effect_none. }
  destruct req as [| body | id | id body | id | id | id gift]; simpl.
  - destruct (getGuestStats_200 db) as [r ->]. apply effect_none.
  - unfold chain. unfold_M.
    destruct (canManageGuests user); [apply effect_none |].
    apply createGuest_effect.
  - apply Hchain. intros g Hg Hacc.
    rewrite (getGuest_allowed user id db g Hg Hacc). apply effect_none.
  - apply Hchain. intros g Hg Hacc.
    rewrite (updateGuest_outcome user id body db g Hg Hacc).
    destruct (uncastable body); [apply effect_none |].
    case_bool_decide as Hv; [| apply effect_none].
    destruct (from_option _ _ _) eqn:Ht; [apply effect_none |].
    by eapply effect_updated.
  - apply Hchain. intros g Hg Hacc.
    rewrite (deleteGuest_allowed user id db g Hg Hacc). apply effect_none.
  - apply Hchain. intros g Hg Hacc.
    destruct (registerEntry_outcome env id db g Hg) as [-> | [Hs ->]].
    + apply effect_none.
    + by apply effect_entered.
  - apply Hchain. intros g Hg Hacc.
    destruct (registerGift_effect env id gift db g Hg) as [-> | [Ht ->]].
    + apply effect_none.
    + by apply effect_gift.
Qed.

Lemma serve_invariant (P : Db → Prop) (Q : Request → Prop) calls db :
  (∀ env user req db0, Q req → P db0 → P (router env user req db0).1) →
  Forall (λ call : Env * User * Request, Q call.2) calls →
  P db → P (serve calls db).1.
Proof.
  intros Hstep Hcalls. revert db.
  induction Hcalls as [| [[env user] req] calls Hreq _ IH]; intros db Hdb.
  - done.
  - rewrite serve_cons. simpl. apply IH. by apply Hstep.
Qed.

(** ** The unique index on [qrCode] *)

Lemma qrCode_not_taken gs id code j g :
  qrCode_taken gs id code = false → gs !! j = Some g → j ≠ id →
  qrCode g ≠ code.
Proof.
  unfold qrCode_taken. rewrite bool_decide_eq_false.
  intros Hn Hj Hne Hc. apply Hn. eauto.
Qed.

Lemma unique_codes_insert db id g' n :
  unique_codes db →
  (∀ j g, guests db !! j = Some g → j ≠ id → qrCode g ≠ qrCode g') →
  unique_codes (mkDb (<[id := g']> (guests db)) n).
Proof.
  intros Hu Hfresh i j gi gj. simpl.
  destruct (decide (id = i)) as [<- | Hi], (decide (id = j)) as [<- | Hj];
    rewrite ?lookup_insert_eq, ?lookup_insert_ne by done; [done | | |].
  - intros [= <-] Hgj Hc. symmetry in Hc. by destruct (Hfresh j gj Hgj).
  - intros Hgi [= <-] Hc. by destruct (Hfresh i gi Hgi).
  - apply Hu.
Qed.

Lemma unique_codes_same_code db id g g' n :
  unique_codes db → guests db !! id = Some g → qrCode g' = qrCode g →
  unique_codes (mkDb (<[id := g']> (guests db)) n).
Proof.
  intros Hu Hg Hc. apply unique_codes_insert; [done |].
  intros j gj Hj Hne Hcj. apply Hne. apply (Hu j id gj g Hj Hg). congruence.
Qed.

Lemma effect_unique_codes req db db' :
  unique_codes db → effect req db db' → unique_codes db'.
Proof.
  intros Hu [| | g' Hv Hs He Ht | id body g -> Hg Hv Ht
             | env id g Hg Hs | id gift g Hg Ht].
  - done.
  - done.
  - apply unique_codes_insert; [done |]. intros j g Hj Hne.
    apply (qrCode_not_taken _ _ _ j _ Ht Hj Hne).
  - change (patch_qrCode (cast_update body)) with (patch_qrCode body) in Ht.
    destruct (patch_qrCode body) as [code |] eqn:Hq; simpl in Ht.
    + apply unique_codes_insert; [done |]. intros j gj Hj Hne.
      rewrite apply_update_qrCode.
      change (patch_qrCode (cast_update body)) with (patch_qrCode body).
      rewrite Hq. simpl. apply (qrCode_not_taken _ _ _ j _ Ht Hj Hne).
    + apply (unique_codes_same_code db id g); [done | done |].
      rewrite apply_update_qrCode.
      change (patch_qrCode (cast_update body)) with (patch_qrCode body).
      by rewrite Hq.
  - by apply (unique_codes_same_code db id g).
  - by apply (unique_codes_same_code db id g).
Qed.

(** X1.  The unique index on [qrCode] holds over every run of requests:
    if no two stored guests share a code, then after any requests, by any
    users, served one after the other, no two stored guests share one.
    An update that names a code another guest has is refused; every other
    write keeps the code of the guest it rewrites. *)
Theorem unique_codes_kept calls db :
  unique_codes db → unique_codes (serve calls db).1.
Proof.
  apply (serve_invariant unique_codes (λ _, True)).
  - intros env user req db0 _ Hu.
    eapply effect_unique_codes; [done | apply router_effect].
  - by apply Forall_forall.
Qed.

(** The two guests of the sample database. *)
Ltac sample_guest i H :=
  destruct i as [| [| i]];
  [ vm_compute in H; injection H as <-
  | vm_compute in H; injection H as <-
  | exfalso; cbv [Sample.db guests] in H;
    rewrite !lookup_insert_ne, lookup_empty in H by done; discriminate ].

Lemma unique_codes_kept_witness :
  unique_codes (serve Sample.evening Sample.db).1.
Proof.
  apply (unique_codes_kept Sample.evening Sample.db).
  intros i j gi gj Hi Hj Hc.
  sample_guest i Hi; sample_guest j Hj; done.
Defined.

(** ** Stored guests stay valid *)




Lemma apply_update_entryTime u g :
  entryTime (apply_update u g)
  = from_option Some (entryTime g) (patch_entryTime u).
Proof.
  unfold apply_update. do 2 (rewrite set_if_other by done).
  destruct (patch_entryTime u); simpl; [done |].
  by do 7 (rewrite set_if_other by done).
Qed.








(** ** [entryTime] and [status] *)

Lemma entries_recorded_insert db id g' n :
  all_entries_recorded db → entry_recorded g' →
  all_entries_recorded (mkDb (<[id := g']> (guests db)) n).
Proof.
  intros Ha Hv i g. simpl. destruct (decide (id = i)) as [<- | Hne].
  - rewrite lookup_insert_eq. by intros [= <-].
  - rewrite lookup_insert_ne by done. apply Ha.
Qed.

Lemma effect_entries_recorded req db db' :
  names_no_entry req →
  all_entries_recorded db → effect req db db' → all_entries_recorded db'.
Proof.
  intros Hreq Ha [| | g' Hv Hs He Ht | id body g -> Hg Hv Ht
                  | env id g Hg Hs | id gift g Hg Ht].
  - done.
  - done.
  - apply entries_recorded_insert; [done |]. unfold entry_recorded.
    rewrite Hs, He. split; [discriminate | by intros [? ?]].
  - apply entries_recorded_insert; [done |]. unfold entry_recorded.
    rewrite apply_update_status, apply_update_entryTime.
    change (patch_status (cast_update body)) with (patch_status body).
    change (patch_entryTime (cast_update body)) with (patch_entryTime body).
    destruct Hreq as [-> ->]. simpl. by apply (Ha id).
  - apply entries_recorded_insert; [done |]. unfold entry_recorded. simpl.
    split; eauto.
  - apply entries_recorded_insert; [done |]. exact (Ha id g Hg).
Qed.

(** X3.  Over every run of requests served one after the other in which no
    [PUT] body names [status] or [entryTime], a stored guest has an
    [entryTime] exactly when its status is ['ingresado'], provided this
    was so before the run: [registerEntry] sets the two together and no
    other handler touches either. *)
Theorem entries_recorded_kept calls db :
  Forall (λ call : Env * User * Request, names_no_entry call.2) calls →
  all_entries_recorded db → all_entries_recorded (serve calls db).1.
Proof.
  intros Hcalls. apply (serve_invariant all_entries_recorded names_no_entry).
  - intros env user req db0 Hreq Ha.
    eapply effect_entries_recorded; [done | done | apply router_effect].
  - done.
Qed.

Lemma entries_recorded_kept_witness :
  all_entries_recorded (serve Sample.evening Sample.db).1.
Proof.
  apply (entries_recorded_kept Sample.evening Sample.db).
  - repeat constructor.
  - intros i g Hi.
    sample_guest i Hi; (split; [discriminate | by intros [? ?]]).
Defined.

(** ** [GET /api/guests] *)

#[local] Instance newer_first_total : Total newer_first.
Proof. intros a b. unfold newer_first. lia. Qed.

Lemma if_given_Some param v :
  if_given param = Some v ↔ param = Some v ∧ v ≠ EmptyString.
Proof.
  unfold if_given. destruct param as [[| c s] |]; simpl; split;
    try (intros [H1 H2]); try intros H; simplify_eq; try done.
Qed.

Lemma if_given_None param :
  if_given param = None ↔ ∀ v, param = Some v → v = EmptyString.
Proof.
  unfold if_given. destruct param as [[| c s] |]; simpl; split; try done.
  - by intros _ v [= <-].
  - intros H. by specialize (H _ eq_refl).
Qed.

Lemma matches_listed_for user q g :
  matches (build_query user q) g = true ↔ listed_for user q g.
Proof.
  unfold matches, build_query, listed_for. simpl.
  rewrite !andb_true_iff.
  assert (∀ (field : string) param,
            from_option (λ v, bool_decide (field = v)) true (if_given param) = true
            ↔ ∀ v, param = Some v → v ≠ EmptyString → field = v) as Hparam.
  { intros field param. destruct (if_given param) as [v |] eqn:Hp; simpl.
    - apply if_given_Some in Hp as [-> Hv]. rewrite bool_decide_eq_true.
      split; [by intros -> v' [= <-] | eauto].
    - split; [| done]. intros _ v Hv Hne.
      by rewrite (proj1 (if_given_None param) Hp v Hv) in Hne. }
  rewrite !Hparam.
  assert (from_option (λ v, bool_decide (createdBy g = v)) true
            (if negb (bool_decide (role user = "admin"))
             then Some (user_id user) else None) = true
          ↔ role user = "admin" ∨ createdBy g = user_id user) as ->; [| tauto].
  case_bool_decide as Hr; simpl.
  - tauto.
  - rewrite bool_decide_eq_true. tauto.
Qed.

Lemma getGuests_eq user q db :
  getGuests user q db
  = (db, inr (let sorted :=
                sort_createdAt_desc
                  (filter (λ kv : nat * Guest, matches (build_query user q) kv.2 = true)
                          (map_to_list (guests db))) in
              mkGuestList (length sorted) sorted)).
Proof. reflexivity. Qed.

(** X4.  [GET /api/guests] lists, each once, exactly the stored guests the
    user may see (all of them for an admin, the ones the user created for
    anybody else) that have the status and the ticket type the query asks
    for; a parameter that is absent or empty filters nothing.  [count] is
    the length of the list, and the database is left as it was. *)
Theorem getGuests_lists_exactly user q db :
  ∃ data,
    getGuests user q db = (db, inr (mkGuestList (length data) data))
    ∧ NoDup data
    ∧ ∀ id g, (id, g) ∈ data ↔ guests db !! id = Some g ∧ listed_for user q g.
Proof.
  rewrite getGuests_eq. eexists. split; [reflexivity |].
  unfold sort_createdAt_desc. split.
  - rewrite merge_sort_Permutation. apply NoDup_filter, NoDup_map_to_list.
  - intros id g. rewrite merge_sort_Permutation, list_elem_of_filter.
    rewrite elem_of_map_to_list. simpl. rewrite matches_listed_for. tauto.
Qed.

(** X5.  The list of [GET /api/guests] is in the order of [createdAt], the
    most recently created guest first. *)
Theorem getGuests_newest_first user q db :
  ∃ data count,
    getGuests user q db = (db, inr (mkGuestList count data))
    ∧ Sorted newer_first data
    ∧ ∀ i j a b, data !! i = Some a → data !! j = Some b → i ≤ j →
                 (createdAt b.2 ≤ createdAt a.2)%N.
Proof.
  rewrite getGuests_eq. eexists. eexists. split; [reflexivity |].
  unfold sort_createdAt_desc.
  set (l := merge_sort _ _).
  assert (StronglySorted newer_first l) as Hs.
  { subst l. apply StronglySorted_merge_sort; [| apply _].
    intros a b c. unfold newer_first. lia. }
  split; [by apply StronglySorted_Sorted |].
  clearbody l. induction Hs as [| x l Hs IH Hall]; intros i j a b Hi Hj Hij.
  - by rewrite lookup_nil in Hi.
  - destruct i as [| i], j as [| j]; simpl in *; simplify_eq.
    + lia.
    + rewrite Forall_forall in Hall. apply (Hall b).
      apply list_elem_of_lookup. eauto.
    + lia.
    + apply (IH i j); [done | done | lia].
Qed.

(** X6.  The list and the access check agree: a stored guest is in the
    unfiltered list of a user exactly when [checkGuestAccess] lets the
    same user through to it. *)
Theorem list_agrees_with_access user db id g :
  guests db !! id = Some g →
  ((∃ data count,
      getGuests user no_filter db = (db, inr (mkGuestList count data))
      ∧ (id, g) ∈ data)
   ↔ checkGuestAccess user id db = (db, inr next)).
Proof.
  intros Hg. rewrite getGuests_eq. unfold sort_createdAt_desc. split.
  - intros (data & count & [= <- <-] & Hin). revert Hin.
    rewrite merge_sort_Permutation, list_elem_of_filter. simpl.
    rewrite matches_listed_for. intros [(Hacc & _) _].
    by apply (checkGuestAccess_allowed user id db g).
  - intros Hnext.
    destruct (decide (may_access user g)) as [Hacc | Hacc].
    + eexists. eexists. split; [reflexivity |].
      rewrite merge_sort_Permutation, list_elem_of_filter, elem_of_map_to_list.
      simpl. rewrite matches_listed_for. by repeat split.
    + rewrite (checkGuestAccess_denied user id db g Hg Hacc) in Hnext.
      discriminate.
Qed.

Lemma list_agrees_with_access_witness :
  (∃ data count,
     getGuests Sample.staffA no_filter Sample.db
     = (Sample.db, inr (mkGuestList count data))
     ∧ (1, Sample.bea) ∈ data)
  ↔ checkGuestAccess Sample.staffA 1 Sample.db = (Sample.db, inr next).
Proof.
  apply (list_agrees_with_access Sample.staffA Sample.db 1 Sample.bea).
  reflexivity.
Defined.

Lemma filter_all {A} (P : A → Prop) `{∀ x, Decision (P x)} (l : list A) :
  (∀ x, x ∈ l → P x) → filter P l = l.
Proof.
  induction l as [| x l IH]; intros Hall; [done |].
  rewrite filter_cons_True by (apply Hall; left).
  f_equal. apply IH. intros y Hy. apply Hall. by right.
Qed.

Lemma getGuestStats_total db :
  ∃ report,
    asyncHandler getGuestStats db = (db, mkResponse 200 (json_stats report))
    ∧ totalGuests report = size (guests db).
Proof.
  unfold asyncHandler, getGuestStats. unfold mbind at 1. unfold M_bind.
  destruct (decide (guests db = ∅)) as [He | Hne].
  - rewrite (aggregate_stats_empty db He). simpl. exists no_stats.
    by rewrite He, map_size_empty.
  - rewrite (aggregate_stats_nonempty db Hne). simpl. eexists.
    split; [reflexivity |]. simpl.
    by rewrite sum_cond_all, length_fmap, length_map_to_list.
Qed.

(** X7.  For an admin who gives no filter, [count] of [GET /api/guests] is
    the number of stored guests, the same number that [GET /stats] reports
    as [totalGuests]. *)
Theorem admin_list_counts_all user db :
  role user = "admin" →
  ∃ data report,
    getGuests user no_filter db
    = (db, inr (mkGuestList (size (guests db)) data))
    ∧ asyncHandler getGuestStats db = (db, mkResponse 200 (json_stats report))
    ∧ totalGuests report = size (guests db).
Proof.
  intros Hadm. destruct (getGuestStats_total db) as (report & Hr & Ht).
  eexists. exists report. split; [| done].
  rewrite getGuests_eq. cbv zeta. unfold sort_createdAt_desc.
  rewrite (Permutation_length (merge_sort_Permutation _ _)).
  rewrite filter_all, length_map_to_list; [done |].
  intros kv _. apply matches_listed_for. split; [by left |].
  split; intros v [=].
Qed.

Lemma admin_list_counts_all_witness :
  ∃ data report,
    getGuests Sample.root no_filter Sample.db
    = (Sample.db, inr (mkGuestList (size (guests Sample.db)) data))
    ∧ asyncHandler getGuestStats Sample.db
      = (Sample.db, mkResponse 200 (json_stats report))
    ∧ totalGuests report = size (guests Sample.db).
Proof. apply (admin_list_counts_all Sample.root Sample.db). reflexivity. Defined.

(** ** [GET /verify/:qrCode] *)

Lemma verifyGuestByQR_eq code db :
  asyncHandler (verifyGuestByQR code) db
  = (db,
     match head (filter (λ kv : nat * Guest, qrCode kv.2 = code)
                        (map_to_list (guests db))) with
     | Some kv => mkResponse 200 (json_guest None (Some kv))
     | None => mkResponse 404 (json_error "Código QR inválido" [] None)
     end).
Proof.
  unfold asyncHandler, verifyGuestByQR. unfold mbind at 1. unfold M_bind.
  unfold findOne_qrCode. unfold_M.
  by destruct (head _) as [[id g] |].
Qed.

Lemma verifyGuestByQR_cases code db :
  (∃ id g,
     asyncHandler (verifyGuestByQR code) db
     = (db, mkResponse 200 (json_guest None (Some (id, g))))
     ∧ guests db !! id = Some g ∧ qrCode g = code)
  ∨ (asyncHandler (verifyGuestByQR code) db
     = (db, mkResponse 404 (json_error "Código QR inválido" [] None))
     ∧ ∀ id g, guests db !! id = Some g → qrCode g ≠ code).
Proof.
  rewrite verifyGuestByQR_eq.
  destruct (filter _ _) as [| [id g] l] eqn:Hf; simpl.
  - right. split; [done |]. intros id g Hg Hc.
    apply (filter_nil_not_elem_of _ _ (id, g) Hf); [done |].
    by apply elem_of_map_to_list.
  - left. exists id, g. split; [done |].
    assert ((id, g) ∈ filter (λ kv : nat * Guest, qrCode kv.2 = code)
                             (map_to_list (guests db))) as Hin
        by (rewrite Hf; left).
    apply list_elem_of_filter in Hin as [Hc Hin].
    by apply elem_of_map_to_list in Hin.
Qed.

(** X8.  [GET /verify/:qrCode] answers 200 with a stored guest that has
    the code if there is one, whoever asks (its route has no access check),
    and 404 ['Código QR inválido'] exactly when no stored guest has the
    code.  The database is left as it was. *)
Theorem verifyGuestByQR_answer code db :
  (∃ id g,
     asyncHandler (verifyGuestByQR code) db
     = (db, mkResponse 200 (json_guest None (Some (id, g))))
     ∧ guests db !! id = Some g ∧ qrCode g = code)
  ∨ (asyncHandler (verifyGuestByQR code) db
     = (db, mkResponse 404 (json_error "Código QR inválido" [] None))
     ∧ ∀ id g, guests db !! id = Some g → qrCode g ≠ code).
Proof. apply verifyGuestByQR_cases. Qed.

(** X9.  With codes that are unique, the lookup by QR code is the inverse
    of storing: asked for the code of a stored guest, [GET /verify/:qrCode]
    answers with this very guest and its [_id]. *)
Theorem verifyGuestByQR_finds_the_guest db id g :
  unique_codes db → guests db !! id = Some g →
  asyncHandler (verifyGuestByQR (qrCode g)) db
  = (db, mkResponse 200 (json_guest None (Some (id, g)))).
Proof.
  intros Hu Hg.
  destruct (verifyGuestByQR_cases (qrCode g) db)
    as [(id' & g' & -> & Hg' & Hc) | [_ Hnone]].
  - assert (id' = id) as -> by (by apply (Hu id' id g' g)).
    rewrite Hg in Hg'. by injection Hg' as <-.
  - by destruct (Hnone id g Hg).
Qed.

Lemma verifyGuestByQR_finds_the_guest_witness :
  asyncHandler (verifyGuestByQR (qrCode Sample.bea)) Sample.db
  = (Sample.db, mkResponse 200 (json_guest None (Some (1, Sample.bea)))).
Proof.
  apply (verifyGuestByQR_finds_the_guest Sample.db 1 Sample.bea).
  - intros i j gi gj Hi Hj Hc. sample_guest i Hi; sample_guest j Hj; done.
  - reflexivity.
Defined.

(** ** What the handlers leave alone *)

(** X10.  [POST /:id/entry], whoever sends it and however it is answered,
    touches nothing but [status] and [entryTime] of the guest it names:
    every other guest is stored as before, no guest appears or disappears,
    and the named guest keeps its name, email, phone, ticket type, QR code,
    gift, creator and creation time. *)
Theorem registerEntry_touches_only_entry env user id db :
  (∀ j, j ≠ id →
        guests (router env user (POST_entry id) db).1 !! j = guests db !! j)
  ∧ (guests db !! id = None →
     guests (router env user (POST_entry id) db).1 !! id = None)
  ∧ (∀ g, guests db !! id = Some g →
       ∃ g', guests (router env user (POST_entry id) db).1 !! id = Some g'
             ∧ name g' = name g ∧ email g' = email g ∧ phone g' = phone g
             ∧ ticketType g' = ticketType g ∧ qrCode g' = qrCode g
             ∧ gift g' = gift g ∧ createdBy g' = createdBy g
             ∧ createdAt g' = createdAt g).
Proof.
  simpl.
  destruct (chain_outcome user id (registerEntry env id) db)
    as [-> | [-> | (g & Hg & Hacc & ->)]]; simpl.
  - split; [done |]. split; [done |]. intros g ->. by exists g.
  - split; [done |]. split; [done |]. intros g ->. by exists g.
  - destruct (registerEntry_outcome env id db g Hg) as [-> | [Hs ->]]; simpl.
    + split; [done |]. split; [done |]. intros g0 ->. by exists g0.
    + split; [intros j Hj; by rewrite lookup_insert_ne |].
      split; [by rewrite Hg |].
      intros g0. rewrite Hg. intros [= <-]. exists (entered env g).
      rewrite (lookup_insert_eq (guests db) id). done.
Qed.

(** X11.  A gift can be registered again: for a schema-valid ['invitacion']
    guest, whatever gift it has, two [POST /:id/gift] in a row by users
    with access are both answered 200, and the guest is then stored with
    the second gift and is otherwise as it was before the first. *)
Theorem registerGift_overwrites env1 env2 user1 user2 id gift1 gift2 db g :
  guests db !! id = Some g → valid g → ticketType g = "invitacion" →
  may_access user1 g → may_access user2 g →
  let first := router env1 user1 (POST_gift id gift1) db in
  let second := router env2 user2 (POST_gift id gift2) first.1 in
  res_status first.2 = 200 ∧ res_status second.2 = 200
  ∧ second.1 = mkDb (<[id := set_gift gift2 g]> (guests db)) (next_id db).
Proof.
  intros Hg Hv Ht Hacc1 Hacc2 first second. subst first second. simpl.
  rewrite (chain_allowed user1 id db _ g Hg Hacc1).
  rewrite (registerGift_invitacion env1 id gift1 db g Hg Hv Ht). simpl.
  set (db1 := mkDb _ _).
  assert (guests db1 !! id = Some (set_gift gift1 g)) as Hg1
      by (subst db1; simpl; apply lookup_insert_eq).
  rewrite (chain_allowed user2 id db1 _ _ Hg1 Hacc2).
  rewrite (registerGift_invitacion env2 id gift2 db1 _ Hg1
             (valid_set_gift gift1 g Hv) Ht).
  simpl. split; [done |]. split; [done |].
  by rewrite insert_insert_eq.
Qed.

Lemma registerGift_overwrites_witness :
  res_status (router Sample.env Sample.staffA (POST_gift 1 (Some "Book"))
                Sample.db).2 = 200
  ∧ res_status
      (router Sample.later Sample.root (POST_gift 1 (Some "Wine"))
         (router Sample.env Sample.staffA (POST_gift 1 (Some "Book"))
            Sample.db).1).2 = 200
  ∧ (router Sample.later Sample.root (POST_gift 1 (Some "Wine"))
       (router Sample.env Sample.staffA (POST_gift 1 (Some "Book"))
          Sample.db).1).1
    = mkDb (<[1 := set_gift (Some "Wine") Sample.bea]> (guests Sample.db))
           (next_id Sample.db).
Proof.
  apply (registerGift_overwrites Sample.env Sample.later Sample.staffA
           Sample.root 1 (Some "Book") (Some "Wine") Sample.db Sample.bea).
  - reflexivity.
  - reflexivity.
  - reflexivity.
  - by right.
  - by left.
Defined.

(** X12.  [DELETE /:id] deletes nothing.  [deleteGuest] calls
    [guest.remove()], which a document of the declared Mongoose 7 does not
    have: the call throws, and the request of a user with access to a
    stored guest is answered 500 ['Error del servidor'].  Whoever sends a
    [DELETE] and whatever [_id] it names, the database after it is the
    database before it. *)
Theorem deleteGuest_deletes_nothing env user id db g :
  guests db !! id = Some g → may_access user g →
  router env user (DELETE_guest id) db
  = (db, mkResponse 500 (json_error "Error del servidor" [] None))
  ∧ ∀ env' user' id', (router env' user' (DELETE_guest id') db).1 = db.
Proof.
  intros Hg Hacc. split.
  - simpl. rewrite (chain_allowed user id db _ g Hg Hacc).
    apply (deleteGuest_allowed user id db g Hg Hacc).
  - intros env' user' id'. simpl.
    destruct (guests db !! id') as [g' |] eqn:Hg'.
    + destruct (decide (may_access user' g')) as [Hacc' | Hden].
      * rewrite (chain_allowed user' id' db _ g' Hg' Hacc').
        by rewrite (deleteGuest_allowed user' id' db g' Hg' Hacc').
      * by rewrite (chain_denied user' id' db _ g' Hg' Hden).
    + by rewrite chain_missing.
Qed.

Lemma deleteGuest_deletes_nothing_witness :
  router Sample.env Sample.staffA (DELETE_guest 0) Sample.db
  = (Sample.db, mkResponse 500 (json_error "Error del servidor" [] None))
  ∧ (router Sample.env Sample.root (DELETE_guest 1) Sample.db).1 = Sample.db.
Proof.
  destruct (deleteGuest_deletes_nothing Sample.env Sample.staffA 0 Sample.db
              Sample.ana eq_refl (or_intror eq_refl)) as [H1 H2].
  exact (conj H1 (H2 Sample.env Sample.root 1)).
Defined.

(** ** What [PUT /:id] and [POST /] refuse *)






(** X14.  [PUT /:id] cannot give a guest the QR code of another one: a
    body whose values can all be cast and that names the code of a
    different stored guest is answered 400 and the database is left as it
    was.  The answer is ['Error de duplicado'] with ['El qrCode ya existe
    en el sistema'] if the validators pass the body, and ['Error de
    validación'] with at least one message if they do not. *)
Theorem updateGuest_refuses_taken_code env user id body db g j gj :
  guests db !! id = Some g → may_access user g →
  guests db !! j = Some gj → j ≠ id →
  uncastable body = None →
  patch_qrCode body = Some (qrCode gj) →
  let out := router env user (PUT_guest id body) db in
  out.1 = db
  ∧ ((validate_update (cast_update body) = []
      ∧ out.2 = mkResponse 400
                  (json_error "Error de duplicado" []
                              (Some "El qrCode ya existe en el sistema")))
     ∨ (∃ messages,
          messages ≠ []
          ∧ out.2 = mkResponse 400
                      (json_error "Error de validación" messages None))).
Proof.
  intros Hg Hacc Hj Hne Hcast Hp out. subst out. simpl.
  rewrite (chain_allowed user id db _ g Hg Hacc).
  rewrite (updateGuest_outcome user id body db g Hg Hacc), Hcast.
  case_bool_decide as Hv.
  - change (patch_qrCode (cast_update body)) with (patch_qrCode body).
    rewrite Hp. simpl.
    assert (qrCode_taken (guests db) id (qrCode gj) = true) as ->.
    { unfold qrCode_taken. apply bool_decide_eq_true. eauto. }
    split; [done |]. by left.
  - split; [done |]. right. by eexists.
Qed.

Lemma updateGuest_refuses_taken_code_witness :
  router Sample.env Sample.staffA
    (PUT_guest 0 (mkPatch None None None None (Some (qrCode Sample.bea)) None
                          None None None None))
    Sample.db
  = (Sample.db,
     mkResponse 400
       (json_error "Error de duplicado" []
                   (Some "El qrCode ya existe en el sistema"))).
Proof.
  destruct (updateGuest_refuses_taken_code Sample.env Sample.staffA 0
              (mkPatch None None None None (Some (qrCode Sample.bea)) None
                       None None None None)
              Sample.db Sample.ana 1 Sample.bea
              eq_refl (or_intror eq_refl) eq_refl ltac:(discriminate)
              eq_refl eq_refl) as [Hdb [[_ Hres] | (messages & Hne & Hres)]].
  - by apply injective_projections.
  - discriminate Hres.
Defined.

(** X15.  [POST /] stores nothing, whatever the body: for a user whose
    role is ['admin'] or ['staff'], the answer is 400 ['Error de
    validación'] with the message of the missing [qrCode] among its
    messages, and the collection is as it was ([createGuest] passes no
    code, and the document is validated before the hook that would
    generate one). *)
Theorem createGuest_always_refused env user body db :
  role user ∈ ["admin"; "staff"] →
  ∃ messages,
    In "Path `qrCode` is required." messages
    ∧ router env user (POST_guest body) db
      = (mkDb (guests db) (S (next_id db)),
         mkResponse 400 (json_error "Error de validación" messages None)).
Proof.
  intros Hrole. exists (validate (new_Guest env (created_by user body))).
  split; [by apply validate_without_qrCode |].
  simpl. unfold chain, canManageGuests. unfold_M.
  rewrite (bool_decide_eq_true_2 _ Hrole). simpl.
  apply createGuest_rejected.
Qed.

Lemma createGuest_always_refused_witness :
  ∃ messages,
    In "Path `qrCode` is required." messages
    ∧ router Sample.env Sample.root (POST_guest Sample.ana_body) Sample.db
      = (mkDb (guests Sample.db) (S (next_id Sample.db)),
         mkResponse 400 (json_error "Error de validación" messages None)).
Proof.
  apply (createGuest_always_refused Sample.env Sample.root Sample.ana_body
           Sample.db).
  apply (bool_decide_unpack _). reflexivity.
Defined.

(** ** The role middlewares *)

(** X16.  The role middlewares agree with each other: [isAdmin] lets
    through exactly the users whose role is ['admin'], which are the ones
    [authorize('admin')] lets through; [canManageGuests] lets through
    exactly the ones [authorize('admin', 'staff')] lets through; whoever
    passes [isAdmin] passes [canManageGuests] and, for every stored guest,
    [checkGuestAccess]; and [authorize] either lets through or answers
    403. *)
Theorem role_middlewares_agree user :
  (isAdmin user = next ↔ role user = "admin")
  ∧ (isAdmin user = next ↔ authorize ["admin"] user = next)
  ∧ (canManageGuests user = next ↔ authorize ["admin"; "staff"] user = next)
  ∧ (isAdmin user = next →
     canManageGuests user = next
     ∧ ∀ db id g, guests db !! id = Some g →
                  checkGuestAccess user id db = (db, inr next))
  ∧ (∀ roles,
       authorize roles user = next
       ∨ ∃ message,
           authorize roles user = respond (mkResponse 403 (json_denied message))).
Proof.
  assert (isAdmin user = next ↔ role user = "admin") as Hadm.
  { unfold isAdmin. case_bool_decide; simpl; split; try done. }
  split; [done |]. split; [| split; [| split]].
  - rewrite Hadm. unfold authorize.
    case_bool_decide as Hr; simpl.
    + apply list_elem_of_singleton in Hr. done.
    + split; [| done]. intros Hrole. destruct Hr. rewrite Hrole. by left.
  - unfold canManageGuests, authorize. by case_bool_decide.
  - rewrite Hadm. intros Hr. split.
    + unfold canManageGuests. rewrite Hr. reflexivity.
    + intros db id g Hg.
      by apply (checkGuestAccess_allowed user id db g Hg (or_introl Hr)).
  - intros roles. unfold authorize. case_bool_decide; simpl; eauto.
Qed.

(** ** The generated QR code *)

Lemma digit36_value_digit36 d :
  (d < 36)%N → digit36_value (JsString.digit36 d) = d.
Proof.
  intros Hd. unfold digit36_value, JsString.digit36.
  destruct (d <? 10)%N eqn:Hlt.
  - apply N.ltb_lt in Hlt. rewrite N_ascii_embedding by lia.
    assert ((48 + d <? 58)%N = true) as -> by (apply N.ltb_lt; lia). lia.
  - apply N.ltb_ge in Hlt. rewrite N_ascii_embedding by lia.
    assert ((87 + d <? 58)%N = false) as -> by (apply N.ltb_ge; lia). lia.
Qed.

Lemma digit36_not_hyphen d : (d < 36)%N → JsString.digit36 d ≠ "-"%char.
Proof.
  intros Hd Heq. apply (f_equal N_of_ascii) in Heq.
  unfold JsString.digit36 in Heq.
  destruct (d <? 10)%N; rewrite N_ascii_embedding in Heq by lia;
    simpl in Heq; lia.
Qed.

Lemma value36_toString36_digits fuel n acc :
  (n < 2 ^ N.of_nat fuel)%N →
  value36 (JsString.toString36_digits fuel n acc) = value36_from n acc.
Proof.
  revert n acc. induction fuel as [| fuel IH]; intros n acc Hn.
  - simpl in *. by assert (n = 0%N) as -> by lia.
  - cbn [JsString.toString36_digits].
    assert (n mod 36 < 36)%N as Hmod by (apply N.mod_lt; lia).
    pose proof (N.div_mod n 36 ltac:(lia)) as Hdm.
    destruct (n / 36 =? 0)%N eqn:Hq.
    + apply N.eqb_eq in Hq. unfold value36. cbn [value36_from].
      rewrite digit36_value_digit36 by done. f_equal. lia.
    + rewrite IH.
      * cbn [value36_from]. rewrite digit36_value_digit36 by done.
        f_equal. lia.
      * rewrite Nat2N.inj_succ, N.pow_succ_r' in Hn.
        apply N.Div0.div_lt_upper_bound. lia.
Qed.

(** [toString(36)] loses nothing: the digits read back give the number. *)
Lemma value36_toString36 n : value36 (JsString.toString36 n) = n.
Proof.
  unfold JsString.toString36. rewrite value36_toString36_digits; [done |].
  rewrite Nat2N.inj_succ, N2Nat.id.
  destruct (N.eq_dec n 0%N) as [-> | Hn]; [done |].
  apply N.log2_spec. lia.
Qed.

Lemma no_hyphen_toString36_digits fuel n acc :
  no_hyphen acc → no_hyphen (JsString.toString36_digits fuel n acc).
Proof.
  revert n acc. induction fuel as [| fuel IH]; intros n acc Hacc; [done |].
  cbn [JsString.toString36_digits].
  assert (no_hyphen (String (JsString.digit36 (n mod 36)) acc)) as Hacc'.
  { split; [| done]. apply digit36_not_hyphen, N.mod_lt. lia. }
  destruct (n / 36 =? 0)%N; [done | by apply IH].
Qed.

Lemma no_hyphen_toString36 n : no_hyphen (JsString.toString36 n).
Proof. by apply no_hyphen_toString36_digits. Qed.

(** The part before the first hyphen is determined by the whole. *)
Lemma before_hyphen_inj s1 s2 r1 r2 :
  no_hyphen s1 → no_hyphen s2 →
  s1 +:+ "-" +:+ r1 = s2 +:+ "-" +:+ r2 → s1 = s2.
Proof.
  revert s2. induction s1 as [| c1 s1 IH]; intros [| c2 s2]; simpl.
  - done.
  - intros _ [Hc _] [= Heq _]. by destruct Hc.
  - intros [Hc _] _ [= Heq _]. by destruct Hc.
  - intros [_ H1] [_ H2] [= -> Heq]. f_equal. by apply IH.
Qed.

(** X17.  Two QR codes that the hook of the schema builds at different
    milliseconds are different, whatever [Math.random()] returns: the part
    of a code before its first hyphen is [Date.now()] in base 36, and
    reading it back gives the time. *)
Theorem generate_qrCode_distinct env1 env2 :
  Date_now env1 ≠ Date_now env2 →
  generate_qrCode env1 ≠ generate_qrCode env2.
Proof.
  intros Hne Heq. apply Hne. unfold generate_qrCode in Heq.
  apply before_hyphen_inj in Heq; [| apply no_hyphen_toString36 ..].
  rewrite <- (value36_toString36 (Date_now env1)).
  rewrite <- (value36_toString36 (Date_now env2)).
  by rewrite Heq.
Qed.

Lemma generate_qrCode_distinct_witness :
  generate_qrCode Sample.env ≠ generate_qrCode Sample.later.
Proof.
  apply (generate_qrCode_distinct Sample.env Sample.later). discriminate.
Defined.

(** ** [POST /:id/entry] under every interleaving *)

Lemma entered_entered env env' g : entered env (entered env' g) = entered env g.
Proof. reflexivity. Qed.









(** ** The statistics and the other routes *)

Lemma getGuestStats_counted db :
  asyncHandler getGuestStats db = (db, mkResponse 200 (json_stats (counted db))).
Proof.
  unfold asyncHandler, getGuestStats. unfold mbind at 1. unfold M_bind.
  unfold counted.
  destruct (decide (guests db = ∅)) as [He | Hne].
  - rewrite (aggregate_stats_empty db He). simpl.
    by rewrite He, !map_filter_empty, map_size_empty.
  - rewrite (aggregate_stats_nonempty db Hne). simpl.
    rewrite sum_cond_all, length_fmap, length_map_to_list.
    by rewrite !sum_cond_size, !size_filter_field, size_filter_gift.
Qed.

Lemma size_filter_fresh (P : nat * Guest → Prop) `{∀ kv, Decision (P kv)}
    (m : gmap nat Guest) i g :
  m !! i = None →
  size (filter P (<[i := g]> m))
  = (if decide (P (i, g)) then 1 else 0) + size (filter P m).
Proof.
  intros Hi. case_decide as HP.
  - rewrite map_filter_insert_True by done.
    rewrite map_size_insert_None; [done |].
    apply map_lookup_filter_None_2. by left.
  - rewrite map_filter_insert_False by done. by rewrite delete_id.
Qed.

(** Rewriting a stored guest moves it from the counters it was in to the
    counters it is in. *)
Lemma size_filter_rewrite (P : nat * Guest → Prop) `{∀ kv, Decision (P kv)}
    (m : gmap nat Guest) i g g' :
  m !! i = Some g →
  size (filter P (<[i := g']> m)) + (if decide (P (i, g)) then 1 else 0)
  = size (filter P m) + (if decide (P (i, g')) then 1 else 0).
Proof.
  intros Hi.
  rewrite <- (insert_delete_eq m i g').
  rewrite <- (insert_delete_id m i g Hi) at 2.
  rewrite !size_filter_fresh by apply lookup_delete_eq. lia.
Qed.

(** X19.  The counters of [GET /stats] fit together: the entered and the
    pending guests are different guests and no more than all; the guests
    with a gift are no more than all; and when every stored guest passes
    the validators of the schema, the three ticket types make up the
    total. *)
Theorem stats_fit_together db :
  ∃ report,
    asyncHandler getGuestStats db = (db, mkResponse 200 (json_stats report))
    ∧ enteredGuests report + pendingGuests report ≤ totalGuests report
    ∧ giftsRegistered report ≤ totalGuests report
    ∧ (all_valid db →
       vipGuests report + generalGuests report + invitacionGuests report
       = totalGuests report).
Proof.
  exists (counted db). split; [apply getGuestStats_counted |].
  unfold counted, all_valid. simpl.
  induction (guests db) as [| i g m Hi IH] using map_ind.
  - rewrite !map_filter_empty, map_size_empty. auto.
  - rewrite !size_filter_fresh by done. rewrite map_size_insert_None by done.
    destruct IH as (IH1 & IH2 & IH3). simpl. split; [| split].
    + repeat case_decide; try lia. congruence.
    + case_decide; lia.
    + intros Hall.
      assert (valid g) as Hv by (apply (Hall i); apply lookup_insert_eq).
      assert (vipGuests_rest :
                size (filter (λ kv : nat * Guest, ticketType kv.2 = "vip") m)
                + size (filter (λ kv : nat * Guest, ticketType kv.2 = "general") m)
                + size (filter (λ kv : nat * Guest, ticketType kv.2 = "invitacion") m)
                = size m).
      { apply IH3. intros j gj Hj. apply (Hall j).
        rewrite lookup_insert_ne; [done |]. intros ->. congruence. }
      apply valid_iff in Hv as (_ & _ & Ht & _).
      unfold validate_ticketType, enum_msg in Ht.
      destruct (JsString.truthy (ticketType g)); [| done].
      case_bool_decide as Hin; [| done].
      unfold ticketType_enum in Hin.
      rewrite !elem_of_cons, elem_of_nil in Hin.
      destruct Hin as [Ht' | [Ht' | [Ht' | []]]]; rewrite Ht';
        repeat case_decide; try done; lia.
Qed.

(** X20.  The statistics follow an entry at once: after a
    [POST /:id/entry] that registered the entry of a schema-valid pending
    guest, [GET /stats] reports one entered guest more and one pending
    guest less than before, and the same total, ticket types and gifts. *)
Theorem stats_follow_entry env user id db g :
  guests db !! id = Some g → may_access user g → valid g →
  status g = "pendiente" →
  ∃ before after,
    asyncHandler getGuestStats db
    = (db, mkResponse 200 (json_stats before))
    ∧ asyncHandler getGuestStats (router env user (POST_entry id) db).1
      = ((router env user (POST_entry id) db).1,
         mkResponse 200 (json_stats after))
    ∧ enteredGuests after = S (enteredGuests before)
    ∧ S (pendingGuests after) = pendingGuests before
    ∧ totalGuests after = totalGuests before
    ∧ vipGuests after = vipGuests before
    ∧ generalGuests after = generalGuests before
    ∧ invitacionGuests after = invitacionGuests before
    ∧ giftsRegistered after = giftsRegistered before.
Proof.
  intros Hg Hacc Hv Hs.
  exists (counted db), (counted (router env user (POST_entry id) db).1).
  split; [apply getGuestStats_counted |].
  split; [apply getGuestStats_counted |].
  simpl router. rewrite (chain_allowed user id db _ g Hg Hacc).
  rewrite (registerEntry_pendiente env id db g Hg Hv Hs).
  unfold counted. cbn [fst guests totalGuests enteredGuests pendingGuests
                       vipGuests generalGuests invitacionGuests giftsRegistered].
  pose proof (λ (P : nat * Guest → Prop) (H : ∀ kv, Decision (P kv)),
              size_filter_rewrite P (guests db) id g (entered env g) Hg) as Hmove.
  pose proof (Hmove (λ kv, status kv.2 = "ingresado") _) as H1.
  pose proof (Hmove (λ kv, status kv.2 = "pendiente") _) as H2.
  pose proof (Hmove (λ kv, ticketType kv.2 = "vip") _) as H3.
  pose proof (Hmove (λ kv, ticketType kv.2 = "general") _) as H4.
  pose proof (Hmove (λ kv, ticketType kv.2 = "invitacion") _) as H5.
  pose proof (Hmove (λ kv, gift kv.2 ≠ None) _) as H6.
  clear Hmove. simpl in H1, H2, H3, H4, H5, H6. rewrite Hs in H1, H2.
  rewrite map_size_insert_Some by eauto.
  repeat case_decide; try done; repeat split; lia.
Qed.

Lemma stats_follow_entry_witness :
  ∃ before after,
    asyncHandler getGuestStats Sample.db
    = (Sample.db, mkResponse 200 (json_stats before))
    ∧ asyncHandler getGuestStats
        (router Sample.env Sample.staffA (POST_entry 0) Sample.db).1
      = ((router Sample.env Sample.staffA (POST_entry 0) Sample.db).1,
         mkResponse 200 (json_stats after))
    ∧ enteredGuests after = S (enteredGuests before)
    ∧ S (pendingGuests after) = pendingGuests before.
Proof.
  destruct (stats_follow_entry Sample.env Sample.staffA 0 Sample.db Sample.ana
              eq_refl (or_intror eq_refl) eq_refl eq_refl)
    as (before & after & H1 & H2 & H3 & H4 & _).
  by exists before, after.
Defined.

(** ** The statuses of the answers *)

Lemma save_error_cases env doc db db' err :
  save env doc db = (db', inl err) →
  (∃ messages, err = ValidationError messages)
  ∨ err = DuplicateKeyError "qrCode" ∨ err = DocumentNotFoundError.
Proof.
  unfold save. unfold mbind at 1. unfold M_bind.
  destruct (decide (validate (fields doc) = [])) as [Hv | Hv].
  - rewrite run_hooks_valid by done.
    unfold save_write. unfold_M.
    destruct (isNew doc).
    + destruct (qrCode_taken _ _ _); intros [= <- <-]; auto.
    + destruct (guests db !! _id doc); [| intros [= <- <-]; auto].
      destruct (_ && _); intros [= <- <-]; auto.
  - rewrite run_hooks_invalid by done. intros [= <- <-]. eauto.
Qed.

Lemma save_error_status env doc db db' err :
  save env doc db = (db', inl err) →
  res_status (errorHandler err) ∈ guest_route_statuses.
Proof.
  intros Hs. apply save_error_cases in Hs as [[messages ->] | [-> | ->]];
    apply (bool_decide_unpack _); reflexivity.
Qed.

Ltac status_listed := apply (bool_decide_unpack _); reflexivity.

(** X21.  Every answer of the guest routes behind [protect] has one of the
    statuses 200, 201, 400, 403, 404 and 500: whatever is thrown on the
    way, by a controller, the model or the driver, reaches the client as
    one of these. *)
Theorem router_statuses env user req db :
  res_status (router env user req db).2 ∈ guest_route_statuses.
Proof.
  assert (∀ id handler,
            (∀ g, guests db !! id = Some g → may_access user g →
                  res_status (asyncHandler handler db).2 ∈ guest_route_statuses) →
            res_status (chain (checkGuestAccess user id) handler db).2
            ∈ guest_route_statuses) as Hchain.
  { intros id handler Hh.
    destruct (chain_outcome user id handler db) as [-> | [-> | (g & Hg & Hacc & ->)]];
      [status_listed | status_listed | eauto]. }
  destruct req as [| body | id | id body | id | id | id gift]; simpl.
  - destruct (getGuestStats_200 db) as [r ->]. status_listed.
  - unfold chain, canManageGuests. unfold_M.
    destruct (negb _); simpl; [status_listed |].
    unfold asyncHandler, createGuest.
    unfold mbind at 1. unfold M_bind, Guest_create.
    unfold mbind at 1. unfold M_bind, new_ObjectId.
    destruct (save _ _ _) as [db' [err | d]] eqn:Hs; simpl; [| status_listed].
    eapply save_error_status, Hs.
  - apply Hchain. intros g Hg Hacc.
    rewrite (getGuest_allowed user id db g Hg Hacc). status_listed.
  - apply Hchain. intros g Hg Hacc.
    rewrite (updateGuest_outcome user id body db g Hg Hacc).
    destruct (uncastable body); [status_listed |].
    case_bool_decide; [destruct (from_option _ _ _) |]; status_listed.
  - apply Hchain. intros g Hg Hacc.
    rewrite (deleteGuest_allowed user id db g Hg Hacc). status_listed.
  - apply Hchain. intros g Hg Hacc.
    destruct (decide (status g = "pendiente")) as [Hst | Hst].
    + rewrite (registerEntry_pendiente_save env id db g Hg Hst).
      destruct (save _ _ _) as [db' [err | d]] eqn:Hs; simpl; [| status_listed].
      eapply save_error_status, Hs.
    + rewrite (registerEntry_not_pendiente env id db g Hg Hst). status_listed.
  - apply Hchain. intros g Hg Hacc.
    unfold asyncHandler, registerGift.
    unfold mbind at 1. unfold M_bind. rewrite findById_eq, Hg. simpl.
    unfold mbind at 1. unfold M_bind, Guest_registerGift.
    destruct (negb _); simpl; [status_listed |].
    destruct (save _ _ _) as [db' [err | d]] eqn:Hs; simpl; [| status_listed].
    eapply save_error_status, Hs.
Qed.

(** ** The list and the statistics; the list and updates *)

Lemma length_filter_map_to_list (P : nat * Guest → Prop)
    `{∀ kv, Decision (P kv)} (m : gmap nat Guest) :
  length (filter P (map_to_list m)) = size (filter P m).
Proof.
  induction m as [| i g m Hi IH] using map_ind.
  - by rewrite map_to_list_empty, map_filter_empty, map_size_empty.
  - rewrite size_filter_fresh by done. rewrite <- IH.
    rewrite (Permutation_length
               (filter_Permutation P _ _ (map_to_list_insert m i g Hi))).
    rewrite filter_cons. by case_decide.
Qed.

Lemma admin_list_of_status user s db :
  role user = "admin" → s ≠ EmptyString →
  getGuests user (of_status s) db
  = (db,
     inr (mkGuestList
            (size (filter (λ kv : nat * Guest, status kv.2 = s) (guests db)))
            (sort_createdAt_desc
               (filter (λ kv : nat * Guest,
                          matches (build_query user (of_status s)) kv.2 = true)
                       (map_to_list (guests db)))))).
Proof.
  intros Hadm Hs. rewrite getGuests_eq. cbv zeta. do 3 f_equal.
  unfold sort_createdAt_desc.
  rewrite (Permutation_length (merge_sort_Permutation _ _)).
  rewrite <- length_filter_map_to_list. f_equal.
  apply list_filter_iff. intros [i g]. simpl.
  rewrite matches_listed_for. unfold listed_for, of_status. simpl. split.
  - intros (_ & Hst & _). by apply Hst.
  - intros Hst. split; [by left |]. split; [by intros ? [= <-] | by intros ? [=]].
Qed.

(** X22.  The list and the statistics count alike: for an admin, [count]
    of [GET /api/guests?status=ingresado] is [enteredGuests] of
    [GET /stats], and [count] of [GET /api/guests?status=pendiente] is
    [pendingGuests]. *)
Theorem list_counts_match_stats user db :
  role user = "admin" →
  ∃ entered pending report,
    asyncHandler getGuestStats db = (db, mkResponse 200 (json_stats report))
    ∧ getGuests user (of_status "ingresado") db
      = (db, inr (mkGuestList (enteredGuests report) entered))
    ∧ getGuests user (of_status "pendiente") db
      = (db, inr (mkGuestList (pendingGuests report) pending)).
Proof.
  intros Hadm. eexists. eexists. exists (counted db).
  split; [apply getGuestStats_counted |].
  split; by apply admin_list_of_status.
Qed.

Lemma list_counts_match_stats_witness :
  ∃ entered pending report,
    asyncHandler getGuestStats Sample.db
    = (Sample.db, mkResponse 200 (json_stats report))
    ∧ getGuests Sample.root (of_status "ingresado") Sample.db
      = (Sample.db, inr (mkGuestList (enteredGuests report) entered))
    ∧ getGuests Sample.root (of_status "pendiente") Sample.db
      = (Sample.db, inr (mkGuestList (pendingGuests report) pending)).
Proof. apply (list_counts_match_stats Sample.root Sample.db). reflexivity. Defined.

(** X23.  An update can hand a guest over: when the creator of a guest, a
    ['staff'] user, sends a [PUT /:id] whose body names another user as
    [createdBy], the update is accepted; from then on every request of
    the former creator that names the guest is answered 403, and the guest
    has left the former creator's list. *)
Theorem update_hands_guest_over env user id other db g :
  guests db !! id = Some g → role user = "staff" →
  createdBy g = user_id user → other ≠ user_id user →
  let out := router env user (PUT_guest id (only_createdBy other)) db in
  res_status out.2 = 200
  ∧ guests out.1 !! id = Some (set_createdBy other g)
  ∧ (∀ env' req, target req = Some id →
       router env' user req out.1
       = (out.1, mkResponse 403
                   (json_denied "No tiene permisos para acceder a este invitado")))
  ∧ ∀ q count data,
      getGuests user q out.1 = (out.1, inr (mkGuestList count data)) →
      ∀ g', (id, g') ∉ data.
Proof.
  intros Hg Hrole Hown Hother out. subst out. simpl router.
  assert (may_access user g) as Hacc by (by right).
  rewrite (chain_allowed user id db _ g Hg Hacc).
  rewrite (updateGuest_outcome user id (only_createdBy other) db g Hg Hacc).
  simpl. set (db' := mkDb _ _).
  assert (guests db' !! id = Some (set_createdBy other g)) as Hg'
      by (subst db'; simpl; apply lookup_insert_eq).
  assert (¬ may_access user (set_createdBy other g)) as Hno.
  { intros [Hadm | Ho]; [rewrite Hrole in Hadm; discriminate | by simpl in Ho]. }
  split; [done |]. split; [done |]. split.
  - intros env' req Hreq.
    by apply (router_target_denied env' user req db' id (set_createdBy other g)).
  - intros q count data Heq g'. rewrite getGuests_eq in Heq.
    injection Heq as _ <-. unfold sort_createdAt_desc.
    rewrite merge_sort_Permutation, list_elem_of_filter, elem_of_map_to_list.
    simpl. rewrite matches_listed_for. intros [(Hvis & _) Hin].
    pose proof (eq_trans (eq_sym Hin) Hg') as Hsame.
    injection Hsame as ->. by apply Hno.
Qed.

Lemma update_hands_guest_over_witness :
  res_status (router Sample.env Sample.staffA (PUT_guest 0 (only_createdBy 8))
                Sample.db).2 = 200
  ∧ guests (router Sample.env Sample.staffA (PUT_guest 0 (only_createdBy 8))
              Sample.db).1 !! 0
    = Some (set_createdBy 8 Sample.ana).
Proof.
  destruct (update_hands_guest_over Sample.env Sample.staffA 0 8 Sample.db
              Sample.ana eq_refl eq_refl eq_refl ltac:(discriminate))
    as (H1 & H2 & _).
  by split.
Defined.

(** ** Instances of the properties above on the sample data *)

Lemma registerEntry_touches_only_entry_witness :
  ∃ g', guests (router Sample.env Sample.staffA (POST_entry 0) Sample.db).1 !! 0
        = Some g'
        ∧ name g' = name Sample.ana ∧ qrCode g' = qrCode Sample.ana
        ∧ gift g' = gift Sample.ana ∧ createdBy g' = createdBy Sample.ana.
Proof.
  destruct (registerEntry_touches_only_entry Sample.env Sample.staffA 0 Sample.db)
    as (_ & _ & Hsame).
  destruct (Hsame Sample.ana eq_refl)
    as (g' & Hg' & Hn & _ & _ & _ & Hq & Hgift & Hby & _).
  exists g'. by repeat split.
Defined.

Lemma role_middlewares_agree_witness :
  canManageGuests Sample.root = next
  ∧ checkGuestAccess Sample.root 0 Sample.db = (Sample.db, inr next).
Proof.
  destruct (role_middlewares_agree Sample.root) as (_ & _ & _ & Hadm & _).
  destruct (Hadm eq_refl) as [Hmanage Haccess].
  split; [exact Hmanage |]. apply (Haccess Sample.db 0 Sample.ana). reflexivity.
Defined.

Lemma stats_fit_together_witness :
  ∃ report,
    asyncHandler getGuestStats Sample.db
    = (Sample.db, mkResponse 200 (json_stats report))
    ∧ vipGuests report + generalGuests report + invitacionGuests report
      = totalGuests report.
Proof.
  destruct (stats_fit_together Sample.db) as (report & Hr & _ & _ & Hsum).
  exists report. split; [exact Hr |]. apply Hsum.
  intros i g Hi. sample_guest i Hi; reflexivity.
Defined.

(** ** A date that is none *)

Lemma uncastable_Some body t :
  patch_entryTime body = Some t ∨ patch_createdAt body = Some t →
  (max_Date < t)%N → is_Some (uncastable body).
Proof.
  intros Hp Ht. unfold uncastable.
  assert (castable_date t = false) as Hc.
  { unfold castable_date. apply N.leb_gt, Ht. }
  destruct Hp as [Hp | Hp].
  - rewrite Hp. simpl. rewrite Hc. simpl. eauto.
  - destruct (negb (from_option castable_date true (patch_entryTime body)));
      [eauto |].
    rewrite Hp. simpl. rewrite Hc. simpl. eauto.
Qed.

(** X24.  [PUT /:id] with an [entryTime] or a [createdAt] beyond the last
    millisecond of a [Date] writes nothing, whatever else the body names:
    the cast of the update throws before the validators run, and the
    answer to a user with access to the stored guest is 500 ['Error del
    servidor'], not a 400 that names the path. *)
Theorem updateGuest_uncastable_date env user id body db g t :
  guests db !! id = Some g → may_access user g →
  patch_entryTime body = Some t ∨ patch_createdAt body = Some t →
  (max_Date < t)%N →
  router env user (PUT_guest id body) db
  = (db, mkResponse 500 (json_error "Error del servidor" [] None)).
Proof.
  intros Hg Hacc Hp Ht. simpl.
  rewrite (chain_allowed user id db _ g Hg Hacc).
  rewrite (updateGuest_outcome user id body db g Hg Hacc).
  by destruct (uncastable_Some body t Hp Ht) as [path ->].
Qed.

Lemma updateGuest_uncastable_date_witness :
  router Sample.env Sample.staffA
    (PUT_guest 0 (mkPatch (Some "Ana") None None None None None None None None
                          (Some 10000000000000000%N)))
    Sample.db
  = (Sample.db, mkResponse 500 (json_error "Error del servidor" [] None)).
Proof.
  apply (updateGuest_uncastable_date Sample.env Sample.staffA 0
           (mkPatch (Some "Ana") None None None None None None None None
                    (Some 10000000000000000%N))
           Sample.db Sample.ana 10000000000000000%N
           eq_refl (or_intror eq_refl) (or_intror eq_refl)).
  reflexivity.
Defined.
